(** * openai-compatible-stt: a shallow embedding of the setup wizard
      (config_flow.py) and of the transcription entity (stt.py).

    Python dictionaries are finite maps, byte strings are lists of bytes,
    exceptions are values of an error type threaded through a small
    state-and-exception monad, and the calls into the interpreter's standard
    library and into the host platform are modelled next to the code that
    makes them. *)

From Stdlib Require Import ZArith Ascii String List Lia.
From Stdlib.Strings Require Import Byte.
From stdpp Require Import base option list gmap strings.

Local Open Scope string_scope.
Local Open Scope Z_scope.

(** ** Python values and exceptions *)

(** The values a submitted form or a persisted record holds: the schema of
    the wizard types every field as a string, and [dict.get] yields [None]. *)
Inductive pyval :=
| PNone
| PStr (s : string).

#[global] Instance pyval_eq_dec : EqDecision pyval.
Proof. solve_decision. Defined.

Abbreviation dict := (gmap string pyval).

(** [str(v)], as an f-string renders a value. *)
Definition py_str (v : pyval) : string :=
  match v with
  | PNone => "None"
  | PStr s => s
  end.

(** [str(v)] for an attribute that is a string or [None]. *)
Definition py_str_opt (v : option string) : string :=
  match v with
  | None => "None"
  | Some s => s
  end.

(** The exceptions the modelled calls raise; all of them are instances of
    Python's [Exception]. *)
Inductive exn :=
| KeyError (key : string)
| ValueError (msg : string)
| AttributeError (msg : string)
| OSError (msg : string)
| WaveError (msg : string)
| StructError (msg : string)
| APIError (msg : string)
| OpenAIError (msg : string)
| AbortFlow (reason : string)
| HomeAssistantError (msg : string).

#[global] Instance exn_eq_dec : EqDecision exn.
Proof. solve_decision. Defined.

(** [str(e)]. A [KeyError] prints the [repr] of its key. *)
Definition exn_str (e : exn) : string :=
  match e with
  | KeyError k => "'" +:+ k +:+ "'"
  | ValueError m | AttributeError m | OSError m | WaveError m
  | StructError m | APIError m | OpenAIError m | AbortFlow m
  | HomeAssistantError m => m
  end.

(** ** A state-and-exception monad

    A computation runs on a state and either returns or raises; the state
    it leaves is kept in both cases, as the effects of Python code that
    raised are. *)
Inductive res (A : Type) :=
| Ret (a : A)
| Raise (e : exn).
Arguments Ret {A} a.
Arguments Raise {A} e.

Definition M (S A : Type) : Type := S -> res A * S.

Definition ret {S A} (a : A) : M S A := fun s => (Ret a, s).
Definition raise {S A} (e : exn) : M S A := fun s => (Raise e, s).
Definition bind {S A B} (m : M S A) (k : A -> M S B) : M S B :=
  fun s => match m s with
           | (Ret a, s') => k a s'
           | (Raise e, s') => (Raise e, s')
           end.
Definition get {S} : M S S := fun s => (Ret s, s).
Definition gets {S A} (f : S -> A) : M S A := fun s => (Ret (f s), s).
Definition modify {S} (f : S -> S) : M S unit := fun s => (Ret tt, f s).

(** [try: body except Exception as e: handler e]. *)
Definition try_except {S A} (body : M S A) (handler : exn -> M S A) : M S A :=
  fun s => match body s with
           | (Ret a, s') => (Ret a, s')
           | (Raise e, s') => handler e s'
           end.

(** [try: body finally: cleanup], which is also how a [with] block runs the
    [__exit__] of its context manager: the cleanup runs on both paths, and an
    exception it raises replaces the one in flight. *)
Definition try_finally {S A} (body : M S A) (cleanup : M S unit) : M S A :=
  fun s => match body s with
           | (r, s') =>
               match cleanup s' with
               | (Ret _, s'') => (r, s'')
               | (Raise e, s'') => (Raise e, s'')
               end
           end.

Notation "'do' x <- m ; k" := (bind m (fun x => k))
  (at level 10, x name, m at level 100, k at level 200).
Notation "'run' m ; k" := (bind m (fun _ => k))
  (at level 10, m at level 100, k at level 200).

(** ** The constants of const.py *)

(** Modelled from the spec: const.py is not among the sources; the keys are
    those of the persisted configuration layout ([api_key?], [base_url],
    [model], [unique_id]). *)
Definition CONF_API_KEY : string := "api_key".
Definition CONF_URL : string := "base_url".
Definition CONF_MODEL : string := "model".
Definition UNIQUE_ID : string := "unique_id".

(** ** Python string operations used by [urllib.parse] *)

Module PyStr.

Definition code (c : ascii) : N := N_of_ascii c.

(** [sep in s]. *)
Fixpoint contains (sep : ascii) (s : string) : bool :=
  match s with
  | EmptyString => false
  | String c s' => if Ascii.eqb c sep then true else contains sep s'
  end.

(** [s.partition(sep)]: the text before the first [sep], whether a [sep]
    was found, and the text after it. *)
Fixpoint partition (sep : ascii) (s : string) : string * bool * string :=
  match s with
  | EmptyString => (EmptyString, false, EmptyString)
  | String c s' =>
      if Ascii.eqb c sep then (EmptyString, true, s')
      else let '(a, found, b) := partition sep s' in (String c a, found, b)
  end.

(** The text after the last [sep], when there is one. *)
Fixpoint after_last (sep : ascii) (s : string) : option string :=
  match s with
  | EmptyString => None
  | String c s' =>
      match after_last sep s' with
      | Some t => Some t
      | None => if Ascii.eqb c sep then Some s' else None
      end
  end.

(** [s.rpartition(sep)[2]]. *)
Definition rpartition_tail (sep : ascii) (s : string) : string :=
  default s (after_last sep s).

(** [s.lstrip(chars)] for the set of characters satisfying [p]. *)
Fixpoint lstrip (p : ascii -> bool) (s : string) : string :=
  match s with
  | EmptyString => EmptyString
  | String c s' => if p c then lstrip p s' else s
  end.

(** Removes every character satisfying [p]: a chain of
    [s.replace(b, "")]. *)
Fixpoint remove (p : ascii -> bool) (s : string) : string :=
  match s with
  | EmptyString => EmptyString
  | String c s' => if p c then remove p s' else String c (remove p s')
  end.

Fixpoint forallb (p : ascii -> bool) (s : string) : bool :=
  match s with
  | EmptyString => true
  | String c s' => p c && forallb p s'
  end.

(** The prefix of [s] before the first character satisfying [p]. *)
Fixpoint take_until (p : ascii -> bool) (s : string) : string :=
  match s with
  | EmptyString => EmptyString
  | String c s' => if p c then EmptyString else String c (take_until p s')
  end.

Definition is_upper (c : ascii) : bool := (65 <=? code c)%N && (code c <=? 90)%N.
Definition is_lower (c : ascii) : bool := (97 <=? code c)%N && (code c <=? 122)%N.
Definition is_digit (c : ascii) : bool := (48 <=? code c)%N && (code c <=? 57)%N.
Definition is_ascii_alpha (c : ascii) : bool := is_upper c || is_lower c.

(** [c.lower()] on code points below 256: the ASCII capitals, and the
    Latin-1 capitals U+00C0..U+00DE except the multiplication sign. *)
Definition lower_char (c : ascii) : ascii :=
  if is_upper c then ascii_of_N (code c + 32)
  else if (192 <=? code c)%N && (code c <=? 222)%N && negb (code c =? 215)%N
       then ascii_of_N (code c + 32)
       else c.

Fixpoint lower (s : string) : string :=
  match s with
  | EmptyString => EmptyString
  | String c s' => String (lower_char c) (lower s')
  end.

Definition is_empty (s : string) : bool :=
  match s with EmptyString => true | _ => false end.

Definition startswith (c : ascii) (s : string) : bool :=
  match s with String c' _ => Ascii.eqb c' c | _ => false end.

End PyStr.

(** ** [urllib.parse.urlparse(url).hostname]

    The standard library's URL splitter, as far as the host name depends on
    it. Strings are sequences of code points below 256; on these
    [_checknetloc] accepts every network location, since NFKC normalisation
    introduces none of [/ ? # @ :] there. The validation of a bracketed host
    as an IP literal ([_check_bracketed_host], which goes through the
    [ipaddress] module) is a parameter: it yields the message of the
    [ValueError] it raises, if any. *)

Section Wizard.

Variable check_bracketed_host : string -> option string.

Definition c0_control_or_space (c : ascii) : bool := (PyStr.code c <=? 32)%N.

Definition unsafe_url_byte (c : ascii) : bool :=
  (PyStr.code c =? 9)%N || (PyStr.code c =? 13)%N || (PyStr.code c =? 10)%N.

Definition scheme_char (c : ascii) : bool :=
  PyStr.is_lower c || PyStr.is_upper c || PyStr.is_digit c
  || Ascii.eqb c "+" || Ascii.eqb c "-" || Ascii.eqb c ".".

(** The URL once a leading scheme and its colon are split off. *)
Definition drop_scheme (url : string) : string :=
  let '(before, found, after) := PyStr.partition ":" url in
  if found && negb (PyStr.is_empty before)
     && match before with
        | String c _ => PyStr.is_ascii_alpha c
        | EmptyString => false
        end
     && PyStr.forallb scheme_char before
  then after else url.

Definition netloc_delim (c : ascii) : bool :=
  Ascii.eqb c "/" || Ascii.eqb c "?" || Ascii.eqb c "#".

(** [_splitnetloc(url, 2)[0]] when [url[:2] == '//'], else [''] . *)
Definition netloc_of (url : string) : string :=
  match url with
  | String "/" (String "/" rest) => PyStr.take_until netloc_delim rest
  | _ => EmptyString
  end.

Definition check_bracketed_netloc (netloc : string) : option string :=
  let hostname_and_port := PyStr.rpartition_tail "@" netloc in
  let '(before_bracket, have_open_br, bracketed) :=
    PyStr.partition "[" hostname_and_port in
  if have_open_br then
    if negb (PyStr.is_empty before_bracket) then Some "Invalid IPv6 URL"
    else
      let '(hostname, _, port) := PyStr.partition "]" bracketed in
      if negb (PyStr.is_empty port) && negb (PyStr.startswith ":" port)
      then Some "Invalid IPv6 URL"
      else check_bracketed_host hostname
  else
    let '(hostname, _, _) := PyStr.partition ":" hostname_and_port in
    check_bracketed_host hostname.

(** The network location of [urlsplit(url)], or the message of the
    [ValueError] it raises. *)
Definition urlsplit_netloc (url : string) : res string :=
  let url := PyStr.lstrip c0_control_or_space url in
  let url := PyStr.remove unsafe_url_byte url in
  let url := drop_scheme url in
  let netloc := netloc_of url in
  let has_open := PyStr.contains "[" netloc in
  let has_close := PyStr.contains "]" netloc in
  if (has_open && negb has_close) || (has_close && negb has_open)
  then Raise (ValueError "Invalid IPv6 URL")
  else
    match (if has_open && has_close then check_bracketed_netloc netloc
           else None) with
    | Some msg => Raise (ValueError msg)
    | None => Ret netloc
    end.

(** [_hostinfo[0]]. *)
Definition hostinfo_host (netloc : string) : string :=
  let hostinfo := PyStr.rpartition_tail "@" netloc in
  let '(_, have_open_br, bracketed) := PyStr.partition "[" hostinfo in
  if have_open_br then
    let '(hostname, _, _) := PyStr.partition "]" bracketed in hostname
  else
    let '(hostname, _, _) := PyStr.partition ":" hostinfo in hostname.

(** The [hostname] property: [None] for an empty host, else the host in
    lower case, a zone after [%] left as it is. *)
Definition hostname_of_netloc (netloc : string) : option string :=
  let hostname := hostinfo_host netloc in
  if PyStr.is_empty hostname then None
  else
    let '(host, percent, zone) := PyStr.partition "%" hostname in
    Some (PyStr.lower host +:+ (if percent then "%" else "") +:+ zone).

(** [urlparse(v).hostname]. [urlparse(None)] parses the empty URL. *)
Definition urlparse_hostname (v : pyval) : res (option string) :=
  match v with
  | PNone => Ret None
  | PStr url =>
      match urlsplit_netloc url with
      | Ret netloc => Ret (hostname_of_netloc netloc)
      | Raise e => Raise e
      end
  end.

(** ** config_flow.py *)

(** [d[k]]. *)
Definition getitem (d : dict) (k : string) : res pyval :=
  match d !! k with
  | Some v => Ret v
  | None => Raise (KeyError k)
  end.

(** [d.get(k)]. *)
Definition dict_get (d : dict) (k : string) : pyval := default PNone (d !! k).

Definition is_None (v : pyval) : bool :=
  match v with PNone => true | PStr _ => false end.

Definition generate_unique_id (user_input : dict) : res string :=
  match getitem user_input CONF_URL with
  | Raise e => Raise e
  | Ret u =>
      match urlparse_hostname u with
      | Raise e => Raise e
      | Ret hostname =>
          match getitem user_input CONF_MODEL with
          | Raise e => Raise e
          | Ret model => Ret (py_str_opt hostname +:+ "_" +:+ py_str model)
          end
      end
  end.

Definition validate_user_input (user_input : dict) : res unit :=
  if is_None (dict_get user_input CONF_MODEL)
  then Raise (ValueError "Model is required")
  else Ret tt.

(** One field of the form: its key, whether it is required, its default. *)
Record SchemaField := {
  field_key : string;
  field_required : bool;
  field_default : option string
}.

Definition data_schema : list SchemaField :=
  [ {| field_key := CONF_API_KEY; field_required := false;
       field_default := None |};
    {| field_key := CONF_URL; field_required := false;
       field_default := Some "https://api.openai.com/v1/" |};
    {| field_key := CONF_MODEL; field_required := true;
       field_default := Some "whisper-1" |} ].

(** What a step of the flow hands back to the host. *)
Inductive FlowResult :=
| FlowForm (step_id : string) (schema : list SchemaField)
           (errors : gmap string string)
           (description_placeholders : option dict)
| FlowAbort (reason : string)
| FlowCreateEntry (title : string) (data : dict).

(** A persisted configuration record, as the host stores it. *)
Record ConfigEntry := {
  entry_unique_id : option string;
  entry_title : string;
  entry_data : dict
}.

(** The host's view of this integration: its records, and the unique ids
    of the other flows in progress. *)
Record Hass := {
  config_entries : list ConfigEntry;
  flows_in_progress : list string
}.

(** The state one call of the step handler works on: the submitted
    dictionary (one object, shared with the caller and with every result
    that refers to it), the unique id in the flow's context, and the local
    [errors]. *)
Record StepState := {
  user_input : dict;
  context_unique_id : option string;
  errors : gmap string string
}.

Definition set_user_input (k : string) (v : pyval) : M StepState unit :=
  modify (fun st => {| user_input := <[k := v]> (user_input st);
                       context_unique_id := context_unique_id st;
                       errors := errors st |}).

Definition set_error (k msg : string) : M StepState unit :=
  modify (fun st => {| user_input := user_input st;
                       context_unique_id := context_unique_id st;
                       errors := <[k := msg]> (errors st) |}).

Definition lift {S A} (r : res A) : M S A := fun s => (r, s).

Definition entry_unique_ids (hass : Hass) : list string :=
  omap entry_unique_id (config_entries hass).

(** The host's [async_set_unique_id]: aborts when another flow with this
    unique id is in progress, else records the id in the flow's context. *)
Definition async_set_unique_id (hass : Hass) (unique_id : string)
  : M StepState unit :=
  if bool_decide (unique_id ∈ flows_in_progress hass)
  then raise (AbortFlow "already_in_progress")
  else modify (fun st => {| user_input := user_input st;
                            context_unique_id := Some unique_id;
                            errors := errors st |}).

(** The host's [_abort_if_unique_id_configured]. *)
Definition abort_if_unique_id_configured (hass : Hass) : M StepState unit :=
  do uid <- gets context_unique_id;
  match uid with
  | None => ret tt
  | Some u =>
      if bool_decide (u ∈ entry_unique_ids hass)
      then raise (AbortFlow "already_configured")
      else ret tt
  end.

(** The body of the [try] statement of [async_step_user]. *)
Definition step_user_try (hass : Hass) : M StepState FlowResult :=
  do ui <- gets user_input;
  run lift (validate_user_input ui);
  do unique_id <- lift (generate_unique_id ui);
  run set_user_input UNIQUE_ID (PStr unique_id);
  run async_set_unique_id hass unique_id;
  run abort_if_unique_id_configured hass;
  do ui <- gets user_input;
  do url <- lift (getitem ui CONF_URL);
  do hostname <- lift (urlparse_hostname url);
  do model <- lift (getitem ui CONF_MODEL);
  do data <- gets user_input;
  ret (FlowCreateEntry
         ("OpenAI Compatible STT (" +:+ py_str_opt hostname +:+ ", "
            +:+ py_str model +:+ ")")
         data).

(** The [except] clauses, in order. [Some r] is a [return r]; [None]
    falls through to the statement after the [try]. *)
Definition step_user_except (e : exn) : M StepState (option FlowResult) :=
  match e with
  | AbortFlow _ => ret (Some (FlowAbort "already_configured"))
  | HomeAssistantError _ => run set_error "base" (exn_str e); ret None
  | ValueError _ => run set_error "base" (exn_str e); ret None
  | _ => run set_error "base" "unknown_error"; ret None
  end.

Definition step_user_submitted (hass : Hass) : M StepState FlowResult :=
  do returned <- try_except
                   (do r <- step_user_try hass; ret (Some r))
                   step_user_except;
  match returned with
  | Some r => ret r
  | None =>
      do errs <- gets errors;
      do ui <- gets user_input;
      ret (FlowForm "user" data_schema errs (Some ui))
  end.

(** [async_step_user(self, user_input)]: what the call returns or raises,
    and the unique id left in the flow's context. *)
Definition async_step_user (hass : Hass) (context_uid : option string)
    (submitted : option dict) : res FlowResult * option string :=
  match submitted with
  | None => (Ret (FlowForm "user" data_schema ∅ None), context_uid)
  | Some ui =>
      let '(r, st) :=
        step_user_submitted hass
          {| user_input := ui; context_unique_id := context_uid;
             errors := ∅ |} in
      (r, context_unique_id st)
  end.

(** What the host does with the outcome of a step: an entry is persisted
    under the unique id of the flow's context; a form or an abort changes
    nothing. *)
Definition host_finish (hass : Hass) (r : res FlowResult * option string)
  : Hass :=
  match r with
  | (Ret (FlowCreateEntry title data), uid) =>
      {| config_entries :=
           config_entries hass
             ++ [ {| entry_unique_id := uid; entry_title := title;
                     entry_data := data |} ];
         flows_in_progress := flows_in_progress hass |}
  | _ => hass
  end.

(** A user submits the form of a fresh flow. *)
Definition submit (hass : Hass) (ui : dict) : res FlowResult * Hass :=
  let r := async_step_user hass None (Some ui) in
  (fst r, host_finish hass r).

End Wizard.

(** ** Bytes, files and the [wave] writer *)

Abbreviation bytes := (list byte).

#[global] Instance byte_eq_dec : EqDecision byte := Byte.byte_eq_dec.

Definition byte_of_Z (z : Z) : byte := default x00 (Byte.of_N (Z.to_N z)).
Definition Z_of_byte (b : byte) : Z := Z.of_N (Byte.to_N b).

(** [n] bytes of [v], least significant first. *)
Fixpoint le_bytes (n : nat) (v : Z) : bytes :=
  match n with
  | O => []
  | S n' => byte_of_Z (v mod 256) :: le_bytes n' (v / 256)
  end.

(** The number a little-endian byte sequence stands for. *)
Fixpoint le_value (bs : bytes) : Z :=
  match bs with
  | [] => 0
  | b :: bs' => Z_of_byte b + 256 * le_value bs'
  end.

(** [struct.pack] of one unsigned field of [n] bytes: out of range is a
    [struct.error]. *)
Definition pack_unsigned (n : nat) (v : Z) : res bytes :=
  if (0 <=? v) && (v <? 2 ^ (8 * Z.of_nat n))
  then Ret (le_bytes n v)
  else Raise (StructError "argument out of range").

(** [file.write(b)] at position [pos] of a file holding [content]: the
    bytes from [pos] on are overwritten, and the file grows as needed. *)
Definition write_at (content : bytes) (pos : nat) (b : bytes) : bytes :=
  (take pos content ++ replicate (pos - length content) x00 ++ b
     ++ drop (pos + length b) content)%list.

(** The fields of a [Wave_write] object. *)
Record WaveWrite := {
  w_file : option string;
  w_nchannels : Z;
  w_sampwidth : Z;
  w_framerate : Z;
  w_nframes : Z;
  w_nframeswritten : Z;
  w_datawritten : Z;
  w_datalength : Z;
  w_headerwritten : bool;
  w_form_length_pos : nat;
  w_data_length_pos : nat
}.

(** [initfp(file)]. *)
Definition wave_initfp (file : string) : WaveWrite :=
  {| w_file := Some file; w_nchannels := 0; w_sampwidth := 0;
     w_framerate := 0; w_nframes := 0; w_nframeswritten := 0;
     w_datawritten := 0; w_datalength := 0; w_headerwritten := false;
     w_form_length_pos := 0; w_data_length_pos := 0 |}.

(** No writer yet: every field as [initfp] sets it, on no file. *)
Definition wave_unopened : WaveWrite :=
  {| w_file := None; w_nchannels := 0; w_sampwidth := 0;
     w_framerate := 0; w_nframes := 0; w_nframeswritten := 0;
     w_datawritten := 0; w_datalength := 0; w_headerwritten := false;
     w_form_length_pos := 0; w_data_length_pos := 0 |}.

(** What an invocation does that the outside can observe. *)
Inductive event :=
| EvPull
| EvTempFile (path : string)
| EvTranscribe (model : pyval) (file : bytes) (language : string)
| EvRemove (path : string).

#[global] Instance event_eq_dec : EqDecision event.
Proof. solve_decision. Defined.

(** The state an invocation runs on: the files on disk, the position of the
    invocation's temporary file object, its [Wave_write] object, and the
    events so far, oldest first. *)
Record World := {
  fs : gmap string bytes;
  tmp_pos : nat;
  wav : WaveWrite;
  trace : list event
}.

Definition set_fs (f : gmap string bytes -> gmap string bytes) (w : World) : World :=
  {| fs := f (fs w); tmp_pos := tmp_pos w; wav := wav w; trace := trace w |}.
Definition set_tmp_pos (p : nat) (w : World) : World :=
  {| fs := fs w; tmp_pos := p; wav := wav w; trace := trace w |}.
Definition set_wav (f : WaveWrite -> WaveWrite) (w : World) : World :=
  {| fs := fs w; tmp_pos := tmp_pos w; wav := f (wav w); trace := trace w |}.
Definition add_events (evs : list event) (w : World) : World :=
  {| fs := fs w; tmp_pos := tmp_pos w; wav := wav w; trace := trace w ++ evs |}.

Definition emit (ev : event) : M World unit := modify (add_events [ev]).

(** *** The temporary file object *)

Definition file_content (path : string) : M World bytes :=
  gets (fun w => default [] (fs w !! path)).

Definition file_write (path : string) (b : bytes) : M World unit :=
  modify (fun w =>
    set_tmp_pos (tmp_pos w + length b)%nat
      (set_fs (fun m => <[path := write_at (default [] (m !! path)) (tmp_pos w) b]> m)
         w)).

Definition file_tell : M World nat := gets tmp_pos.
Definition file_seek (p : nat) : M World unit := modify (set_tmp_pos p).

(** [os.remove(path)]. *)
Definition os_remove (path : string) : M World unit :=
  run modify (set_fs (delete path)); emit (EvRemove path).

(** *** [Wave_write] *)

Definition wave_update (f : WaveWrite -> WaveWrite) : M World unit :=
  modify (set_wav f).

Definition wave_check_unwritten : M World unit :=
  do w <- gets wav;
  if negb (w_datawritten w =? 0)
  then raise (WaveError "cannot change parameters after starting to write")
  else ret tt.

Definition wave_setnchannels (nchannels : Z) : M World unit :=
  run wave_check_unwritten;
  if nchannels <? 1 then raise (WaveError "bad # of channels")
  else wave_update (fun w =>
    {| w_file := w_file w; w_nchannels := nchannels;
       w_sampwidth := w_sampwidth w; w_framerate := w_framerate w;
       w_nframes := w_nframes w; w_nframeswritten := w_nframeswritten w;
       w_datawritten := w_datawritten w; w_datalength := w_datalength w;
       w_headerwritten := w_headerwritten w;
       w_form_length_pos := w_form_length_pos w;
       w_data_length_pos := w_data_length_pos w |}).

Definition wave_setsampwidth (sampwidth : Z) : M World unit :=
  run wave_check_unwritten;
  if (sampwidth <? 1) || (4 <? sampwidth) then raise (WaveError "bad sample width")
  else wave_update (fun w =>
    {| w_file := w_file w; w_nchannels := w_nchannels w;
       w_sampwidth := sampwidth; w_framerate := w_framerate w;
       w_nframes := w_nframes w; w_nframeswritten := w_nframeswritten w;
       w_datawritten := w_datawritten w; w_datalength := w_datalength w;
       w_headerwritten := w_headerwritten w;
       w_form_length_pos := w_form_length_pos w;
       w_data_length_pos := w_data_length_pos w |}).

Definition wave_setframerate (framerate : Z) : M World unit :=
  run wave_check_unwritten;
  if framerate <=? 0 then raise (WaveError "bad frame rate")
  else wave_update (fun w =>
    {| w_file := w_file w; w_nchannels := w_nchannels w;
       w_sampwidth := w_sampwidth w; w_framerate := framerate;
       w_nframes := w_nframes w; w_nframeswritten := w_nframeswritten w;
       w_datawritten := w_datawritten w; w_datalength := w_datalength w;
       w_headerwritten := w_headerwritten w;
       w_form_length_pos := w_form_length_pos w;
       w_data_length_pos := w_data_length_pos w |}).

(** The file the writer was opened on; [self._file] is [None] once closed. *)
Definition wave_file : M World string :=
  do w <- gets wav;
  match w_file w with
  | Some path => ret path
  | None => raise (AttributeError "'NoneType' object has no attribute 'write'")
  end.

Definition WAVE_FORMAT_PCM : Z := 1.

(** [struct.pack('<L4s4sLHHLLHH4s', ...)] of [_write_header]. *)
Definition pack_header (datalength nchannels framerate sampwidth : Z) : res bytes :=
  match pack_unsigned 4 (36 + datalength),
        pack_unsigned 4 16,
        pack_unsigned 2 WAVE_FORMAT_PCM,
        pack_unsigned 2 nchannels,
        pack_unsigned 4 framerate,
        pack_unsigned 4 (nchannels * framerate * sampwidth),
        pack_unsigned 2 (nchannels * sampwidth),
        pack_unsigned 2 (sampwidth * 8) with
  | Ret form_length, Ret fmt_length, Ret tag, Ret channels, Ret rate,
    Ret byte_rate, Ret block_align, Ret bits =>
      Ret (form_length ++ list_byte_of_string "WAVE"
             ++ list_byte_of_string "fmt " ++ fmt_length ++ tag ++ channels
             ++ rate ++ byte_rate ++ block_align ++ bits
             ++ list_byte_of_string "data")%list
  | _, _, _, _, _, _, _, _ => Raise (StructError "argument out of range")
  end.

Definition wave_write_header (initlength : Z) : M World unit :=
  do file <- wave_file;
  run file_write file (list_byte_of_string "RIFF");
  run wave_update (fun w =>
    let nframes :=
      if w_nframes w =? 0
      then initlength / (w_nchannels w * w_sampwidth w)
      else w_nframes w in
    {| w_file := w_file w; w_nchannels := w_nchannels w;
       w_sampwidth := w_sampwidth w; w_framerate := w_framerate w;
       w_nframes := nframes; w_nframeswritten := w_nframeswritten w;
       w_datawritten := w_datawritten w;
       w_datalength := nframes * w_nchannels w * w_sampwidth w;
       w_headerwritten := w_headerwritten w;
       w_form_length_pos := w_form_length_pos w;
       w_data_length_pos := w_data_length_pos w |});
  do form_length_pos <- file_tell;
  do w <- gets wav;
  do header <- lift (pack_header (w_datalength w) (w_nchannels w)
                       (w_framerate w) (w_sampwidth w));
  run file_write file header;
  do data_length_pos <- file_tell;
  do length_field <- lift (pack_unsigned 4 (w_datalength w));
  run file_write file length_field;
  wave_update (fun w =>
    {| w_file := w_file w; w_nchannels := w_nchannels w;
       w_sampwidth := w_sampwidth w; w_framerate := w_framerate w;
       w_nframes := w_nframes w; w_nframeswritten := w_nframeswritten w;
       w_datawritten := w_datawritten w; w_datalength := w_datalength w;
       w_headerwritten := true;
       w_form_length_pos := form_length_pos;
       w_data_length_pos := data_length_pos |}).

Definition wave_ensure_header_written (datasize : Z) : M World unit :=
  do w <- gets wav;
  if w_headerwritten w then ret tt
  else if w_nchannels w =? 0 then raise (WaveError "# channels not specified")
  else if w_sampwidth w =? 0 then raise (WaveError "sample width not specified")
  else if w_framerate w =? 0 then raise (WaveError "sampling rate not specified")
  else wave_write_header datasize.

Definition wave_patchheader : M World unit :=
  do w <- gets wav;
  if w_datawritten w =? w_datalength w then ret tt
  else
    do file <- wave_file;
    do curpos <- file_tell;
    run file_seek (w_form_length_pos w);
    do form_length <- lift (pack_unsigned 4 (36 + w_datawritten w));
    run file_write file form_length;
    run file_seek (w_data_length_pos w);
    do length_field <- lift (pack_unsigned 4 (w_datawritten w));
    run file_write file length_field;
    run file_seek curpos;
    wave_update (fun w =>
      {| w_file := w_file w; w_nchannels := w_nchannels w;
         w_sampwidth := w_sampwidth w; w_framerate := w_framerate w;
         w_nframes := w_nframes w; w_nframeswritten := w_nframeswritten w;
         w_datawritten := w_datawritten w; w_datalength := w_datawritten w;
         w_headerwritten := w_headerwritten w;
         w_form_length_pos := w_form_length_pos w;
         w_data_length_pos := w_data_length_pos w |}).

(** [writeframesraw(data)] on a little-endian machine, where the samples
    are written as they come. *)
Definition wave_writeframesraw (data : bytes) : M World unit :=
  run wave_ensure_header_written (Z.of_nat (length data));
  do w <- gets wav;
  let nframes := Z.of_nat (length data) / (w_sampwidth w * w_nchannels w) in
  do file <- wave_file;
  run file_write file data;
  wave_update (fun w =>
    {| w_file := w_file w; w_nchannels := w_nchannels w;
       w_sampwidth := w_sampwidth w; w_framerate := w_framerate w;
       w_nframes := w_nframes w;
       w_nframeswritten := w_nframeswritten w + nframes;
       w_datawritten := w_datawritten w + Z.of_nat (length data);
       w_datalength := w_datalength w;
       w_headerwritten := w_headerwritten w;
       w_form_length_pos := w_form_length_pos w;
       w_data_length_pos := w_data_length_pos w |}).

Definition wave_writeframes (data : bytes) : M World unit :=
  run wave_writeframesraw data;
  do w <- gets wav;
  if negb (w_datalength w =? w_datawritten w) then wave_patchheader else ret tt.

(** [close()]: the header is completed and the file flushed; the file
    object, which the writer did not open, stays open. *)
Definition wave_close : M World unit :=
  try_finally
    (do w <- gets wav;
     match w_file w with
     | None => ret tt
     | Some _ =>
         run wave_ensure_header_written 0;
         do w <- gets wav;
         if negb (w_datalength w =? w_datawritten w) then wave_patchheader
         else ret tt
     end)
    (wave_update (fun w =>
      {| w_file := None; w_nchannels := w_nchannels w;
         w_sampwidth := w_sampwidth w; w_framerate := w_framerate w;
         w_nframes := w_nframes w; w_nframeswritten := w_nframeswritten w;
         w_datawritten := w_datawritten w; w_datalength := w_datalength w;
         w_headerwritten := w_headerwritten w;
         w_form_length_pos := w_form_length_pos w;
         w_data_length_pos := w_data_length_pos w |})).

(** [wave.open(file, "wb")]. *)
Definition wave_open (file : string) : M World unit :=
  wave_update (fun _ => wave_initfp file).

(** A reader for the canonical 44-byte layout: the channel count, the
    sample rate, the bits per sample and the frames of a WAV file. *)
Record WavInfo := {
  wav_channels : Z;
  wav_rate : Z;
  wav_bits : Z;
  wav_frames : bytes
}.

Definition slice (off len : nat) (b : bytes) : bytes := take len (drop off b).

Definition wave_read (b : bytes) : option WavInfo :=
  if bool_decide (slice 0 4 b = list_byte_of_string "RIFF")
     && bool_decide (slice 8 8 b = list_byte_of_string "WAVEfmt ")
     && bool_decide (le_value (slice 20 2 b) = WAVE_FORMAT_PCM)
     && bool_decide (slice 36 4 b = list_byte_of_string "data")
     && bool_decide (le_value (slice 40 4 b) = Z.of_nat (length b - 44))
  then Some {| wav_channels := le_value (slice 22 2 b);
               wav_rate := le_value (slice 24 4 b);
               wav_bits := le_value (slice 34 2 b);
               wav_frames := drop 44 b |}
  else None.

(** ** stt.py *)

Inductive AudioFormats := WAV | OGG.
Inductive AudioCodecs := PCM | OPUS.
Inductive SpeechResultState := SUCCESS | ERROR.

(** The metadata of a request. The bit rate, the sample rate and the
    channel count are integer enumerations of the host. *)
Record SpeechMetadata := {
  language : string;
  format : AudioFormats;
  codec : AudioCodecs;
  bit_rate : Z;
  sample_rate : Z;
  channel : Z
}.

(** What the [text] of an answer, and so of a result, can be. The client
    builds the answer from the body of the response without validating it:
    the text is the string the body holds, [None] when the body holds none,
    or whatever else the body holds under that name, kept here as its JSON
    text. *)
Inductive TextValue :=
| TextNone
| TextStr (s : string)
| TextOther (json : string).

Coercion TextStr : string >-> TextValue.

Record SpeechResult := {
  text : TextValue;
  result : SpeechResultState
}.

(** The [AsyncOpenAI] client: the settings it was built with. *)
Record Client := {
  client_api_key : pyval;
  client_base_url : pyval
}.

Record Entity := {
  ent_client : Client;
  ent_config : dict;
  ent_model : pyval;
  attr_unique_id : pyval;
  entity_id : string
}.

Section Setup.

(** The host's [generate_entity_id(format, name, hass)]. *)
Variable generate_entity_id : string -> pyval -> string.

(** [AsyncOpenAI(api_key=..., base_url=..., http_client=...)]: the client
    the constructor of the library builds, or the exception it raises, as
    it does for no API key when the environment has none either. *)
Variable AsyncOpenAI : pyval -> pyval -> res Client.

(** [OpenAICompatibleSTTEntity.__init__]; [config] is [config.data]. *)
Definition entity_init (config : dict) (client : Client) (model : pyval)
  : res Entity :=
  let unique_id := dict_get config UNIQUE_ID in
  match (if is_None unique_id
         then match getitem config CONF_MODEL with
              | Ret m => Ret (PStr (py_str m))
              | Raise e => Raise e
              end
         else Ret unique_id) with
  | Raise e => Raise e
  | Ret unique_id =>
      match getitem config CONF_MODEL with
      | Raise e => Raise e
      | Ret name =>
          Ret {| ent_client := client; ent_config := config;
                 ent_model := model; attr_unique_id := unique_id;
                 entity_id :=
                   generate_entity_id "stt.openai_compatible_stt_{}" name |}
      end
  end.

(** [async_setup_entry]: the entities handed to the host. *)
Definition async_setup_entry (data : dict) : res (list Entity) :=
  let api_key :=
    match data !! CONF_API_KEY with
    | Some v => v
    | None => PNone
    end in
  match getitem data CONF_URL with
  | Raise e => Raise e
  | Ret base_url =>
      match AsyncOpenAI api_key base_url with
      | Raise e => Raise e
      | Ret client =>
          match getitem data CONF_MODEL with
          | Raise e => Raise e
          | Ret model =>
              match entity_init data client model with
              | Raise e => Raise e
              | Ret entity => Ret [entity]
              end
          end
      end
  end.

End Setup.

(** What the call to the remote endpoint returns. From a body that is a
    JSON object the client builds an answer object: its text is the string
    of the body, [None] for a body with no text, or the other JSON value
    the body holds as its text. A body that is no JSON object is returned
    as it is, a value with no [text]. *)
Inductive Transcription :=
| WithText (t : string)
| WithoutText
| WithOtherText (json : string)
| NotAnObject (body : string).

(** What an invocation cannot decide: where the operating system puts a new
    temporary file (or the error of creating one), and what the call to the
    remote endpoint yields for a client, a model, a file and a language. *)
Record Env := {
  env_mkstemp : string -> res string;
  env_remote : Client -> pyval -> bytes -> string -> res Transcription
}.

(** The chunk stream of the host: the chunks it delivers, then either the
    end of the stream or an exception. *)
Record Stream := {
  chunks : list bytes;
  stream_failure : option exn
}.

(** [tempfile.NamedTemporaryFile(delete=..., suffix=...)]: a new, empty
    file, open at position 0. *)
Definition NamedTemporaryFile (env : Env) (suffix : string) : M World string :=
  do path <- lift (env_mkstemp env suffix);
  run modify (set_fs (<[path := []]>));
  run file_seek 0;
  run emit (EvTempFile path);
  ret path.

(** Leaving the [with] block of the temporary file closes it, which
    removes it when it was made with [delete=True]. *)
Definition tempfile_exit (delete : bool) (path : string) : M World unit :=
  if delete then os_remove path else ret tt.

(** [self._client.audio.transcriptions.create(model, file, language)]: the
    file object is sent from its start to its end. *)
Definition transcriptions_create (env : Env) (self : Entity) (file : string)
    (language : string) : M World Transcription :=
  do content <- file_content file;
  run emit (EvTranscribe (ent_model self) content language);
  lift (env_remote env (ent_client self) (ent_model self) content language).

(** [transcription.text]: an answer object always has the attribute, which
    is [None] for a body with no text; another value has none. *)
Definition transcription_text (t : Transcription) : res TextValue :=
  match t with
  | WithText s => Ret (TextStr s)
  | WithoutText => Ret TextNone
  | WithOtherText json => Ret (TextOther json)
  | NotAnObject _ => Raise (AttributeError "object has no attribute 'text'")
  end.

(** The loop [async for chunk in stream: data += chunk], one pull of the
    stream per chunk. *)
Fixpoint accumulate_loop (data : bytes) (cs : list bytes) : M World bytes :=
  match cs with
  | [] => ret data
  | chunk :: rest => run emit EvPull; accumulate_loop (data ++ chunk)%list rest
  end.

(** The whole iteration: after the chunks, one more pull meets the end of
    the stream or the exception the stream raises. *)
Definition accumulate (stream : Stream) : M World bytes :=
  do data <- accumulate_loop [] (chunks stream);
  run emit EvPull;
  match stream_failure stream with
  | Some e => raise e
  | None => ret data
  end.

(** The statement [with wave.open(temp_file, "wb") as wav_file: ...]. *)
Definition write_wav (temp_file : string) (metadata : SpeechMetadata)
    (data : bytes) : M World unit :=
  run wave_open temp_file;
  try_finally
    (run wave_setnchannels (channel metadata);
     run wave_setsampwidth 2;
     run wave_setframerate (sample_rate metadata);
     wave_writeframes data)
    wave_close.

(** The body of the [try] statement of [async_process_audio_stream]. *)
Definition process_try (env : Env) (self : Entity) (metadata : SpeechMetadata)
    (data : bytes) : M World SpeechResult :=
  do transcription <-
    (do temp_file <- NamedTemporaryFile env ".wav";
     try_finally
       (run write_wav temp_file metadata data;
        let temp_file_path := temp_file in
        transcriptions_create env self temp_file (language metadata))
       (tempfile_exit false temp_file));
  do t <- lift (transcription_text transcription);
  ret {| text := t; result := SUCCESS |}.

(** What follows the accumulation of the buffer. *)
Definition process_buffer (env : Env) (self : Entity) (metadata : SpeechMetadata)
    (data : bytes) : M World SpeechResult :=
  match data with
  | [] => ret {| text := ""; result := ERROR |}
  | _ =>
      try_except (process_try env self metadata data)
        (fun e => ret {| text := ""; result := ERROR |})
  end.

Definition async_process_audio_stream (env : Env) (self : Entity)
    (metadata : SpeechMetadata) (stream : Stream) : M World SpeechResult :=
  do data <- accumulate stream;
  process_buffer env self metadata data.

(** The world an invocation starts in. *)
Definition initial_world (files : gmap string bytes) : World :=
  {| fs := files; tmp_pos := 0; wav := wave_unopened; trace := [] |}.

(** *** Invocations in progress on one entity

    An invocation suspended in its loop owns a frame: its local [data], the
    chunks its stream has yet to deliver, and whether the loop has met the
    end of the stream. The loop reads and writes no field of the entity, so
    a resumption changes the frame of the resumed invocation and nothing
    else. *)
Record Frame := {
  fr_data : bytes;
  fr_pending : list bytes;
  fr_exhausted : bool
}.

Definition frame_start (cs : list bytes) : Frame :=
  {| fr_data := []; fr_pending := cs; fr_exhausted := false |}.

(** One resumption: the next chunk is appended, or the end is met. *)
Definition frame_step (fr : Frame) : Frame :=
  match fr_pending fr with
  | chunk :: rest =>
      {| fr_data := (fr_data fr ++ chunk)%list; fr_pending := rest;
         fr_exhausted := false |}
  | [] => {| fr_data := fr_data fr; fr_pending := []; fr_exhausted := true |}
  end.

(** The event loop resumes the invocations in the order of a schedule;
    an index that names no invocation resumes none. *)
Definition pool_step (pool : list Frame) (i : nat) : list Frame :=
  alter frame_step i pool.

Definition run_schedule (schedule : list nat) (pool : list Frame) : list Frame :=
  fold_left pool_step schedule pool.

(** ** Predicates of the statements *)

Section Records.

Variable check_bracketed_host : string -> option string.

(** The host name and the model a record was made for. *)
Definition hostname_model (d : dict) : res (option string * pyval) :=
  match getitem d CONF_URL with
  | Raise e => Raise e
  | Ret u =>
      match urlparse_hostname check_bracketed_host u with
      | Raise e => Raise e
      | Ret hostname =>
          match getitem d CONF_MODEL with
          | Raise e => Raise e
          | Ret model => Ret (hostname, model)
          end
      end
  end.

(** The records are those the wizard makes: each is stored under the
    unique id derived from its data, and no two share a unique id. *)
Definition wizard_store (hass : Hass) : Prop :=
  NoDup (entry_unique_ids hass)
  ∧ Forall (fun e => ∃ uid, entry_unique_id e = Some uid
              ∧ generate_unique_id check_bracketed_host (entry_data e) = Ret uid)
      (config_entries hass).

(** At most one record per pair of host name and model. *)
Definition one_record_per_pair (hass : Hass) : Prop :=
  ∀ i j e1 e2 p,
    config_entries hass !! i = Some e1 →
    config_entries hass !! j = Some e2 →
    hostname_model (entry_data e1) = Ret p →
    hostname_model (entry_data e2) = Ret p →
    i = j.

End Records.

(** No event of [evs] is a call of the remote endpoint. *)
Definition no_remote_call (evs : list event) : Prop :=
  ∀ m f l, EvTranscribe m f l ∉ evs.

(** No event of [evs] removes a file. *)
Definition no_removal (evs : list event) : Prop :=
  ∀ p, EvRemove p ∉ evs.

(** ** Definitions of the statements *)

(** The title of the record made for a host name and a model. *)
Definition entry_title_of (h : option string) (m : pyval) : string :=
  "OpenAI Compatible STT (" +:+ py_str_opt h +:+ ", " +:+ py_str m +:+ ")".

(** The message an [except] clause other than the first puts on the form. *)
Definition surfaced_message (e : exn) : string :=
  match e with
  | HomeAssistantError m | ValueError m => m
  | _ => "unknown_error"
  end.

(** The state a call of the step handler starts in. *)
Definition step_start (ui : dict) (ctx : option string) : StepState :=
  {| user_input := ui; context_unique_id := ctx; errors := ∅ |}.

(** The submission of the specification's example, and a host with no
    record and no flow in progress. *)
Definition openai_submission : dict :=
  <[CONF_URL := PStr "https://api.openai.com/v1/"]>
    (<[CONF_MODEL := PStr "whisper-1"]> ∅).

Definition empty_hass : Hass :=
  {| config_entries := []; flows_in_progress := [] |}.

(** An IP-literal check that accepts every bracketed host. *)
Definition accept_bracketed_host : string -> option string := fun _ => None.

(** The bytes of a WAV file of 16-bit samples. *)
Definition wav_image (nchannels framerate : Z) (data : bytes) : bytes :=
  (list_byte_of_string "RIFF"
     ++ le_bytes 4 (36 + Z.of_nat (length data))
     ++ list_byte_of_string "WAVE" ++ list_byte_of_string "fmt "
     ++ le_bytes 4 16 ++ le_bytes 2 WAVE_FORMAT_PCM
     ++ le_bytes 2 nchannels ++ le_bytes 4 framerate
     ++ le_bytes 4 (nchannels * framerate * 2)
     ++ le_bytes 2 (nchannels * 2) ++ le_bytes 2 16
     ++ list_byte_of_string "data"
     ++ le_bytes 4 (Z.of_nat (length data)) ++ data)%list.

(** The fields of the header fit their width. *)
Definition wav_fields_fit (nchannels framerate : Z) (data : bytes) : Prop :=
  1 ≤ nchannels ∧ nchannels * 2 < 65536
  ∧ 1 ≤ framerate < 4294967296
  ∧ nchannels * framerate * 2 < 4294967296
  ∧ 36 + Z.of_nat (length data) < 4294967296.

(** A computation that adds no event and removes no file. *)
Definition quiet {A} (m : M World A) : Prop :=
  ∀ w, trace (m w).2 = trace w
       ∧ ∀ p, is_Some (fs w !! p) → is_Some (fs (m w).2 !! p).

(** The writer once the three parameters are set. *)
Definition wave_set (path : string) (md : SpeechMetadata) : WaveWrite :=
  {| w_file := Some path; w_nchannels := channel md; w_sampwidth := 2;
     w_framerate := sample_rate md; w_nframes := 0; w_nframeswritten := 0;
     w_datawritten := 0; w_datalength := 0; w_headerwritten := false;
     w_form_length_pos := 0; w_data_length_pos := 0 |}.

(** The world once the temporary file [p] has been made. *)
Definition staged (p : string) (w : World) : World :=
  {| fs := <[p := []]> (fs w); tmp_pos := 0; wav := wav w;
     trace := (trace w ++ [EvTempFile p])%list |}.

(** The result of every failure. *)
Definition failure : SpeechResult := {| text := ""; result := ERROR |}.

(** The result the answer of the remote endpoint is turned into. *)
Definition result_of_answer (a : res Transcription) : SpeechResult :=
  match a with
  | Ret t =>
      match transcription_text t with
      | Ret v => {| text := v; result := SUCCESS |}
      | Raise _ => failure
      end
  | Raise _ => failure
  end.

(** The pulls of a stream of [n] chunks: one per chunk, and the one that
    meets the end. *)
Definition pulls (n : nat) : list event := replicate (S n) EvPull.

(** The temporary file can be made and the header fields fit. *)
Definition staging_succeeds (env : Env) (md : SpeechMetadata) (data : bytes)
  : Prop :=
  (∃ p, env_mkstemp env ".wav" = Ret p)
  ∧ wav_fields_fit (channel md) (sample_rate md) data.

(** What the remote endpoint answers to the staged file. *)
Definition answer (env : Env) (self : Entity) (md : SpeechMetadata)
    (data : bytes) : res Transcription :=
  env_remote env (ent_client self) (ent_model self)
    (wav_image (channel md) (sample_rate md) data) (language md).

(** ** Examples *)

(** The record the wizard makes of [openai_submission], and a host that
    holds it. *)
Definition openai_record : ConfigEntry :=
  {| entry_unique_id := Some "api.openai.com_whisper-1";
     entry_title := "OpenAI Compatible STT (api.openai.com, whisper-1)";
     entry_data :=
       <[UNIQUE_ID := PStr "api.openai.com_whisper-1"]> openai_submission |}.

Definition configured_hass : Hass :=
  {| config_entries := [openai_record]; flows_in_progress := [] |}.

(** Submissions: one with no model, one whose model is the empty string,
    one whose URL opens a bracket it does not close. *)
Definition no_model_submission : dict :=
  <[CONF_URL := PStr "https://api.openai.com/v1/"]> ∅.

Definition empty_model_submission : dict :=
  <[CONF_MODEL := PStr ""]> openai_submission.

Definition bad_url_submission : dict :=
  <[CONF_URL := PStr "https://[api.openai.com/v1/"]>
    (<[CONF_MODEL := PStr "whisper-1"]> ∅).

(** A record from before unique ids were stored. *)
Definition legacy_record : dict := openai_submission.

(** An operating system that names the temporary file, and an endpoint
    that answers with a text. *)
Definition example_env : Env :=
  {| env_mkstemp := fun suffix => Ret ("/tmp/tmpk3v9" +:+ suffix);
     env_remote := fun _ _ _ _ => Ret (WithText "turn on the light") |}.

Definition example_entity : Entity :=
  {| ent_client := {| client_api_key := PNone;
                      client_base_url := PStr "https://api.openai.com/v1/" |};
     ent_config := openai_submission;
     ent_model := PStr "whisper-1";
     attr_unique_id := PStr "api.openai.com_whisper-1";
     entity_id := "stt.openai_compatible_stt_whisper_1" |}.

Definition example_metadata : SpeechMetadata :=
  {| language := "en"; format := WAV; codec := PCM; bit_rate := 16;
     sample_rate := 16000; channel := 1 |}.

Definition example_stream : Stream :=
  {| chunks := [[x01; x02]; [x03; x04]]; stream_failure := None |}.

Definition silent_stream : Stream :=
  {| chunks := [[]; []]; stream_failure := None |}.

Definition example_data : bytes := [x01; x02; x03; x04].

(** Metadata that declares no channel, and a stream that fails after its
    first chunk. *)
Definition no_channel_metadata : SpeechMetadata :=
  {| language := "en"; format := WAV; codec := PCM; bit_rate := 16;
     sample_rate := 16000; channel := 0 |}.

Definition broken_stream : Stream :=
  {| chunks := [[x01; x02]];
     stream_failure := Some (OSError "connection lost") |}.

(** An endpoint whose answer has no text. *)
Definition textless_env : Env :=
  {| env_mkstemp := fun suffix => Ret ("/tmp/tmpk3v9" +:+ suffix);
     env_remote := fun _ _ _ _ => Ret WithoutText |}.

(** The writer after it has written [data] and has been closed. *)
Definition wave_writer_closed (nchannels framerate : Z) (data : bytes)
  : WaveWrite :=
  {| w_file := None; w_nchannels := nchannels; w_sampwidth := 2;
     w_framerate := framerate;
     w_nframes := Z.of_nat (length data) / (nchannels * 2);
     w_nframeswritten := Z.of_nat (length data) / (2 * nchannels);
     w_datawritten := Z.of_nat (length data);
     w_datalength := Z.of_nat (length data);
     w_headerwritten := true; w_form_length_pos := 4;
     w_data_length_pos := 40 |}.

Definition example_entity_id (format : string) (name : pyval) : string :=
  "stt.openai_compatible_stt_" +:+ py_str name.

(** ** More of stt.py *)

(** The capabilities the entity advertises: [AudioFormats.WAV],
    [AudioCodecs.PCM], [AudioBitRates.BITRATE_16],
    [AudioSampleRates.SAMPLERATE_16000] and [AudioChannels.CHANNEL_MONO],
    the last three by their integer values. *)
Definition supported_formats (self : Entity) : list AudioFormats := [WAV].
Definition supported_codecs (self : Entity) : list AudioCodecs := [PCM].
Definition supported_bit_rates (self : Entity) : list Z := [16].
Definition supported_sample_rates (self : Entity) : list Z := [16000].
Definition supported_channels (self : Entity) : list Z := [1].

(** The [name] property of the entity. *)
Definition entity_name (self : Entity) : res string :=
  match getitem (ent_config self) CONF_MODEL with
  | Ret m => Ret (py_str m)
  | Raise e => Raise e
  end.

(** The dictionary [device_info] returns. *)
Record DeviceInfo := {
  identifiers : list (string * pyval);
  device_model : string;
  manufacturer : string
}.

Section Device.

(** The [DOMAIN] of const.py. *)
Variable DOMAIN : string.

(** The [device_info] property of the entity. *)
Definition device_info (self : Entity) : res DeviceInfo :=
  match getitem (ent_config self) CONF_MODEL with
  | Ret m =>
      Ret {| identifiers := [(DOMAIN, attr_unique_id self)];
             device_model := py_str m;
             manufacturer := "OpenAI Compatible" |}
  | Raise e => Raise e
  end.

End Device.

(** ** More definitions of the statements *)

(** A character of a plain host name: none of the delimiters of a network
    location, of user information, of a port, of an IP literal or of a
    zone, and none of the bytes the splitter removes. *)
Definition host_char (c : ascii) : bool :=
  negb (netloc_delim c || Ascii.eqb c "@" || Ascii.eqb c ":"
        || Ascii.eqb c "[" || Ascii.eqb c "]" || Ascii.eqb c "%"
        || unsafe_url_byte c).

(** What follows the host in a URL: nothing, or a path, a query or a
    fragment. *)
Definition url_rest (s : string) : bool :=
  match s with
  | EmptyString => true
  | String c _ => netloc_delim c
  end.

(** [scheme://host:port] followed by [rest], the port being optional. *)
Definition simple_url (scheme host : string) (port : option string)
    (rest : string) : string :=
  scheme +:+ "://" +:+ host
    +:+ match port with Some p => ":" +:+ p | None => "" end +:+ rest.

(** [s] holds two slashes in a row. *)
Fixpoint double_slash (s : string) : bool :=
  match s with
  | EmptyString => false
  | String c s' =>
      (Ascii.eqb c "/" && PyStr.startswith "/" s') || double_slash s'
  end.

(** A URL scheme: a letter, then letters, digits, [+], [-] and [.]. *)
Definition url_scheme (s : string) : bool :=
  match s with
  | String c _ => PyStr.is_ascii_alpha c
  | EmptyString => false
  end && PyStr.forallb scheme_char s.

(** The port of a URL, when it has one: digits. *)
Definition url_port (port : option string) : bool :=
  match port with
  | Some p => PyStr.forallb PyStr.is_digit p
  | None => true
  end.

(** The host and the port of a simple URL, as they stand in it. *)
Definition host_port (host : string) (port : option string) : string :=
  host +:+ match port with Some p => ":" +:+ p | None => "" end.

(** ** More examples *)

(** A host with no record, on which another flow for
    ["api.openai.com_whisper-1"] is in progress. *)
Definition busy_hass : Hass :=
  {| config_entries := [];
     flows_in_progress := ["api.openai.com_whisper-1"] |}.

(** Submissions: one with no base URL, one for the same host as
    [openai_submission] under another scheme, port and path, one whose base
    URL has no slashes in a row, and [openai_submission] with blanks before
    the URL. *)
Definition no_url_submission : dict := <[CONF_MODEL := PStr "whisper-1"]> ∅.

Definition other_port_submission : dict :=
  <[CONF_URL := PStr (simple_url "HTTP" "API.OpenAI.com" (Some "8080") "/v2")]>
    (<[CONF_MODEL := PStr "whisper-1"]> ∅).

Definition hostless_submission : dict :=
  <[CONF_URL := PStr "localhost:8080/v1"]>
    (<[CONF_MODEL := PStr "whisper-1"]> ∅).

(** A constructor of the client for the examples. As the library's does
    where the environment sets no [OPENAI_API_KEY], it raises for no API
    key; it keeps the key and the base URL it is given. *)
Definition example_AsyncOpenAI (api_key base_url : pyval) : res Client :=
  match api_key with
  | PNone =>
      Raise (OpenAIError
               ("The api_key client option must be set either by passing "
                  +:+ "api_key to the client or by setting the "
                  +:+ "OPENAI_API_KEY environment variable"))
  | PStr _ =>
      Ret {| client_api_key := api_key; client_base_url := base_url |}
  end.

(** [openai_submission] with an API key, and the client made for it. *)
Definition keyed_submission : dict :=
  <[CONF_API_KEY := PStr "sk-example"]> openai_submission.

Definition keyed_client : Client :=
  {| client_api_key := PStr "sk-example";
     client_base_url := PStr "https://api.openai.com/v1/" |}.

(** The entity made from [legacy_record]. *)
Definition legacy_entity : Entity :=
  {| ent_client := ent_client example_entity;
     ent_config := legacy_record;
     ent_model := PStr "whisper-1";
     attr_unique_id := PStr "whisper-1";
     entity_id :=
       example_entity_id "stt.openai_compatible_stt_{}" (PStr "whisper-1") |}.

Definition blank_led_submission : dict :=
  <[CONF_URL := PStr ("  " +:+ "https://api.openai.com/v1/")]>
    openai_submission.

(** * Facts *)

Create HintDb monad_ops.
#[global] Hint Unfold ret raise bind get gets modify try_except try_finally lift : monad_ops.

Ltac run_monad := autounfold with monad_ops; cbn.

Section WizardFacts.

Variable cbh : string -> option string.

Lemma generate_unique_id_inv (ui : dict) (uid : string) :
  generate_unique_id cbh ui = Ret uid →
  ∃ u h m, ui !! CONF_URL = Some u ∧ urlparse_hostname cbh u = Ret h
           ∧ ui !! CONF_MODEL = Some m
           ∧ uid = py_str_opt h +:+ "_" +:+ py_str m.
Proof.
  unfold generate_unique_id, getitem.
  destruct (ui !! CONF_URL) as [u|] eqn:Hu; [|done].
  destruct (urlparse_hostname cbh u) as [h|] eqn:Hh; [|done].
  destruct (ui !! CONF_MODEL) as [m|] eqn:Hm; [|done].
  intros [= <-]. eauto 10.
Qed.

Lemma generate_unique_id_insert_unique_id (ui : dict) (v : pyval) :
  generate_unique_id cbh (<[UNIQUE_ID := v]> ui) = generate_unique_id cbh ui.
Proof.
  unfold generate_unique_id, getitem.
  rewrite !lookup_insert_ne by done. reflexivity.
Qed.

Lemma hostname_model_unique_id (d : dict) :
  generate_unique_id cbh d =
    match hostname_model cbh d with
    | Ret (h, m) => Ret (py_str_opt h +:+ "_" +:+ py_str m)
    | Raise e => Raise e
    end.
Proof.
  unfold generate_unique_id, hostname_model.
  destruct (getitem d CONF_URL); [|done].
  destruct (urlparse_hostname cbh a); [|done].
  destruct (getitem d CONF_MODEL); done.
Qed.

(** The four ways a submission ends. *)
Lemma submit_invalid hass ctx ui :
  validate_user_input ui = Raise (ValueError "Model is required") →
  async_step_user cbh hass ctx (Some ui)
  = (Ret (FlowForm "user" data_schema {["base" := "Model is required"]} (Some ui)), ctx).
Proof.
  intros Hv. unfold async_step_user, step_user_submitted, step_user_try.
  run_monad. rewrite Hv. cbn. reflexivity.
Qed.

End WizardFacts.

Section WizardFacts2.

Variable cbh : string -> option string.

Lemma validate_user_input_cases ui :
  (validate_user_input ui = Ret tt ∧ dict_get ui CONF_MODEL ≠ PNone)
  ∨ (validate_user_input ui = Raise (ValueError "Model is required")
     ∧ dict_get ui CONF_MODEL = PNone).
Proof.
  unfold validate_user_input.
  destruct (dict_get ui CONF_MODEL); cbn; [right|left]; done.
Qed.

Lemma generate_unique_id_raises ui e :
  generate_unique_id cbh ui = Raise e →
  (∃ k, e = KeyError k) ∨ (∃ m, e = ValueError m).
Proof.
  unfold generate_unique_id, getitem.
  destruct (ui !! CONF_URL) as [u|]; [|intros [= <-]; eauto].
  destruct u as [|url]; cbn.
  - destruct (ui !! CONF_MODEL); [done|intros [= <-]; eauto].
  - unfold urlsplit_netloc.
    repeat match goal with
           | |- context [if ?b then _ else _] => destruct b
           | |- context [match ?o with Some _ => _ | None => _ end] =>
               destruct o
           end; try done; intros [= <-]; eauto.
Qed.

Lemma step_user_try_invalid hass ui ctx :
  validate_user_input ui = Raise (ValueError "Model is required") →
  step_user_try cbh hass (step_start ui ctx)
  = (Raise (ValueError "Model is required"), step_start ui ctx).
Proof.
  intros Hv. unfold step_user_try. run_monad. rewrite Hv. reflexivity.
Qed.

Lemma step_user_try_underivable hass ui ctx e :
  validate_user_input ui = Ret tt →
  generate_unique_id cbh ui = Raise e →
  step_user_try cbh hass (step_start ui ctx) = (Raise e, step_start ui ctx).
Proof.
  intros Hv Hg. unfold step_user_try. run_monad. rewrite Hv, Hg. reflexivity.
Qed.

Lemma step_user_try_derived hass ui ctx uid :
  validate_user_input ui = Ret tt →
  generate_unique_id cbh ui = Ret uid →
  ∃ h m,
    uid = py_str_opt h +:+ "_" +:+ py_str m ∧
    step_user_try cbh hass (step_start ui ctx) =
      let ui' := <[UNIQUE_ID := PStr uid]> ui in
      if bool_decide (uid ∈ flows_in_progress hass)
      then (Raise (AbortFlow "already_in_progress"), step_start ui' ctx)
      else if bool_decide (uid ∈ entry_unique_ids hass)
           then (Raise (AbortFlow "already_configured"),
                 step_start ui' (Some uid))
           else (Ret (FlowCreateEntry (entry_title_of h m) ui'),
                 step_start ui' (Some uid)).
Proof.
  intros Hv Hg.
  destruct (generate_unique_id_inv cbh ui uid Hg) as (u & h & m & Hu & Hh & Hm & ->).
  exists h, m. split; [reflexivity|].
  unfold step_user_try, async_set_unique_id, abort_if_unique_id_configured,
    set_user_input.
  run_monad. rewrite Hv, Hg. cbn.
  case_bool_decide; [reflexivity|]. cbn.
  case_bool_decide; [reflexivity|]. cbn.
  unfold getitem. rewrite !lookup_insert_ne by done. rewrite Hu, Hm. cbn.
  rewrite Hh. reflexivity.
Qed.

(** What [async_step_user] makes of the outcome of its [try] body. *)
Lemma async_step_user_of_try hass ui ctx out st :
  step_user_try cbh hass (step_start ui ctx) = (out, st) →
  async_step_user cbh hass ctx (Some ui) =
    match out with
    | Ret r => (Ret r, context_unique_id st)
    | Raise (AbortFlow _) =>
        (Ret (FlowAbort "already_configured"), context_unique_id st)
    | Raise e =>
        (Ret (FlowForm "user" data_schema
                (<["base" := surfaced_message e]> (errors st))
                (Some (user_input st))),
         context_unique_id st)
    end.
Proof.
  intros Ht. unfold async_step_user, step_user_submitted.
  fold (step_start ui ctx). unfold bind, try_except. cbv beta. rewrite Ht.
  destruct out as [r|e]; [reflexivity|]. destruct e; reflexivity.
Qed.

Lemma NoDup_omap_lookup {A B} (f : A → option B) (l : list A) i j a b x :
  NoDup (omap f l) → l !! i = Some a → l !! j = Some b →
  f a = Some x → f b = Some x → i = j.
Proof.
  revert i j. induction l as [|c l IH]; intros i j Hnd Hi Hj Ha Hb; [done|].
  assert (Hin : ∀ k d, l !! k = Some d → f d = Some x → x ∈ omap f l).
  { intros k d Hk Hd. apply list_elem_of_omap. exists d.
    split; [|done]. by eapply list_elem_of_lookup_2. }
  destruct i as [|i], j as [|j]; cbn in *; simplify_eq; try done.
  - rewrite Ha in Hnd. apply NoDup_cons in Hnd as [Hx _].
    destruct Hx. eauto.
  - rewrite Hb in Hnd. apply NoDup_cons in Hnd as [Hx _].
    destruct Hx. eauto.
  - f_equal. apply IH; try done.
    destruct (f c); [by apply NoDup_cons in Hnd as [_ ?]|done].
Qed.

Lemma wizard_store_one_record_per_pair hass :
  wizard_store cbh hass → one_record_per_pair cbh hass.
Proof.
  intros [Hnd Hall] i j e1 e2 [h m] Hi Hj H1 H2.
  rewrite Forall_lookup in Hall.
  destruct (Hall _ _ Hi) as (u1 & Hu1 & Hg1).
  destruct (Hall _ _ Hj) as (u2 & Hu2 & Hg2).
  rewrite hostname_model_unique_id, H1 in Hg1.
  rewrite hostname_model_unique_id, H2 in Hg2.
  simplify_eq.
  by eapply (NoDup_omap_lookup entry_unique_id).
Qed.

Lemma submit_preserves_wizard_store hass ui :
  wizard_store cbh hass → wizard_store cbh (snd (submit cbh hass ui)).
Proof.
  intros Hok. unfold submit. cbn [snd].
  destruct (step_user_try cbh hass (step_start ui None)) as [out st] eqn:Ht.
  rewrite (async_step_user_of_try _ _ _ _ _ Ht).
  destruct out as [r|e]; cycle 1.
  { destruct e; exact Hok. }
  destruct (validate_user_input_cases ui) as [[Hv _]|[Hv _]]; cycle 1.
  { rewrite (step_user_try_invalid _ _ _ Hv) in Ht. done. }
  destruct (generate_unique_id cbh ui) as [uid|e] eqn:Hg; cycle 1.
  { rewrite (step_user_try_underivable _ _ _ _ Hv Hg) in Ht. done. }
  destruct (step_user_try_derived hass ui None uid Hv Hg) as (h & m & Huid & Hs).
  rewrite Ht in Hs. cbn zeta in Hs.
  case_bool_decide; [done|]. case_bool_decide as Hfresh; [done|].
  injection Hs as -> ->. cbn.
  destruct Hok as [Hnd Hall]. split; cbn.
  - unfold entry_unique_ids. cbn. rewrite omap_app. cbn.
    apply NoDup_app. split; [exact Hnd|]. split.
    + intros x Hx. rewrite list_elem_of_singleton. intros ->. done.
    + apply NoDup_singleton.
  - apply Forall_app. split; [exact Hall|].
    apply Forall_singleton. exists uid. split; [reflexivity|]. cbn.
    by rewrite generate_unique_id_insert_unique_id.
Qed.

End WizardFacts2.

Section WizardStatements.

Variable cbh : string -> option string.

(** C3. For a submission whose base URL is a string with a host name and
    whose model is a string, the derived unique id is the host name, then
    an underscore, then the model; the URL "https://api.openai.com/v1/"
    with the model "whisper-1" gives "api.openai.com_whisper-1". *)
Theorem unique_id_is_hostname_underscore_model (ui : dict) (url m h : string) :
  ui !! CONF_URL = Some (PStr url) →
  ui !! CONF_MODEL = Some (PStr m) →
  urlparse_hostname cbh (PStr url) = Ret (Some h) →
  generate_unique_id cbh ui = Ret (h +:+ "_" +:+ m)
  ∧ generate_unique_id cbh openai_submission = Ret "api.openai.com_whisper-1".
Proof.
  intros Hu Hm Hh. split.
  - unfold generate_unique_id, getitem. rewrite Hu, Hh, Hm. reflexivity.
  - vm_compute. reflexivity.
Qed.

(** C4. A submission that passes validation and whose derived unique id
    is that of a stored record ends in an abort with the reason
    "already_configured" and leaves the records as they were; and whatever
    is submitted, the records stay those of the wizard, no two with one
    unique id, hence at most one per pair of host name and model. *)
Theorem duplicate_submission_aborts (hass : Hass) (ui : dict) :
  wizard_store cbh hass →
  (∀ uid, validate_user_input ui = Ret tt →
          generate_unique_id cbh ui = Ret uid →
          uid ∈ entry_unique_ids hass →
          submit cbh hass ui = (Ret (FlowAbort "already_configured"), hass))
  ∧ wizard_store cbh (snd (submit cbh hass ui))
  ∧ one_record_per_pair cbh (snd (submit cbh hass ui)).
Proof.
  intros Hok. split; [|split].
  - intros uid Hv Hg Hin. unfold submit.
    destruct (step_user_try_derived cbh hass ui None uid Hv Hg)
      as (h & m & _ & Hs).
    cbn zeta in Hs. rewrite (bool_decide_eq_true_2 _ Hin) in Hs.
    destruct (bool_decide (uid ∈ flows_in_progress hass));
      rewrite (async_step_user_of_try _ _ _ _ _ _ Hs); reflexivity.
  - by apply submit_preserves_wizard_store.
  - by apply wizard_store_one_record_per_pair, submit_preserves_wizard_store.
Qed.

(** C5, amended. A submission whose model is missing or is [None] gets the
    form back with the validation error "Model is required", and no record
    is made. *)
Theorem missing_model_is_rejected (hass : Hass) (ui : dict) :
  dict_get ui CONF_MODEL = PNone →
  submit cbh hass ui
  = (Ret (FlowForm "user" data_schema {["base" := "Model is required"]}
            (Some ui)),
     hass).
Proof.
  intros Hm.
  destruct (validate_user_input_cases ui) as [[_ Hne]|[Hv _]]; [done|].
  unfold submit.
  rewrite (async_step_user_of_try _ _ _ _ _ _ (step_user_try_invalid cbh hass ui None Hv)).
  reflexivity.
Qed.

(** C8. When the body of the step fails with anything but the abort of a
    duplicate, the form of the step is handed back with the message under
    "base" (the message of the error itself for a value error or a host
    error, "unknown_error" otherwise), with the submitted values, unchanged,
    as its placeholders, and no record is made. *)
Theorem failed_submission_redisplays_form (hass : Hass) (ctx : option string)
    (ui : dict) (e : exn) (st : StepState) :
  step_user_try cbh hass (step_start ui ctx) = (Raise e, st) →
  (∀ reason, e ≠ AbortFlow reason) →
  async_step_user cbh hass ctx (Some ui)
  = (Ret (FlowForm "user" data_schema {["base" := surfaced_message e]}
            (Some ui)),
     ctx)
  ∧ host_finish hass (async_step_user cbh hass ctx (Some ui)) = hass
  ∧ (∀ msg, e = ValueError msg → surfaced_message e = msg).
Proof.
  intros Ht Hne.
  assert (Hst : st = step_start ui ctx).
  { destruct (validate_user_input_cases ui) as [[Hv _]|[Hv _]].
    - destruct (generate_unique_id cbh ui) as [uid|e'] eqn:Hg.
      + destruct (step_user_try_derived cbh hass ui ctx uid Hv Hg)
          as (h & m & _ & Hs).
        rewrite Ht in Hs. cbn zeta in Hs.
        repeat case_bool_decide; simplify_eq; by edestruct Hne.
      + rewrite (step_user_try_underivable _ _ _ _ _ Hv Hg) in Ht.
        by simplify_eq.
    - rewrite (step_user_try_invalid _ _ _ _ Hv) in Ht. by simplify_eq. }
  subst st.
  rewrite (async_step_user_of_try _ _ _ _ _ _ Ht).
  assert (Hform : ∀ A (x y : A),
             match e with AbortFlow _ => x | _ => y end = y).
  { intros A x y. destruct e; try reflexivity. by edestruct Hne. }
  rewrite Hform. cbn. split; [reflexivity|]. split; [reflexivity|].
  by intros msg ->.
Qed.

End WizardStatements.

Lemma unique_id_is_hostname_underscore_model_witness :
  generate_unique_id accept_bracketed_host openai_submission
  = Ret ("api.openai.com" +:+ "_" +:+ "whisper-1")
  ∧ generate_unique_id accept_bracketed_host openai_submission
    = Ret "api.openai.com_whisper-1".
Proof.
  apply (unique_id_is_hostname_underscore_model accept_bracketed_host
           openai_submission "https://api.openai.com/v1/" "whisper-1"
           "api.openai.com"); reflexivity.
Defined.

(** ** The [wave] writer *)

#[local] Arguments pack_unsigned : simpl never.
#[local] Arguments pack_header : simpl never.
#[local] Arguments write_at : simpl never.
#[local] Arguments byte_of_Z : simpl never.

Lemma bind_ret_inv {S A B} (m : M S A) (k : A → M S B) s b s' :
  bind m k s = (Ret b, s') → ∃ a s1, m s = (Ret a, s1) ∧ k a s1 = (Ret b, s').
Proof.
  unfold bind. destruct (m s) as [[a|e] s1]; [eauto|done].
Qed.

Lemma try_finally_ret_inv {S A} (body : M S A) (cleanup : M S unit) s a s' :
  try_finally body cleanup s = (Ret a, s') →
  ∃ s1, body s = (Ret a, s1) ∧ cleanup s1 = (Ret tt, s').
Proof.
  unfold try_finally. destruct (body s) as [r s1].
  destruct (cleanup s1) as [[[]|e] s2] eqn:Hc; intros [= -> ->]; eauto.
Qed.

Ltac minv H Hm :=
  apply bind_ret_inv in H as (? & ? & Hm & H); cbv beta in H.

Lemma setters_inv path md m t w2 (k : M World unit) :
  (run wave_setnchannels (channel md);
   run wave_setsampwidth 2;
   run wave_setframerate (sample_rate md);
   k)
    {| fs := m; tmp_pos := 0; wav := wave_initfp path; trace := t |}
  = (Ret tt, w2) →
  1 ≤ channel md ∧ 1 ≤ sample_rate md ∧
  k {| fs := m; tmp_pos := 0;
       wav := {| w_file := Some path; w_nchannels := channel md;
                 w_sampwidth := 2; w_framerate := sample_rate md;
                 w_nframes := 0; w_nframeswritten := 0; w_datawritten := 0;
                 w_datalength := 0; w_headerwritten := false;
                 w_form_length_pos := 0; w_data_length_pos := 0 |};
       trace := t |} = (Ret tt, w2).
Proof.
  intros H.
  minv H H1.
  unfold wave_setnchannels, wave_check_unwritten, wave_update in H1.
  autounfold with monad_ops in H1. cbn in H1.
  change (0 =? 0) with true in H1. cbn in H1.
  destruct (channel md <? 1) eqn:Hc; [done|]. cbn in H1. simplify_eq.
  minv H H1.
  unfold wave_setsampwidth, wave_check_unwritten, wave_update in H1.
  autounfold with monad_ops in H1. cbn in H1.
  change (0 =? 0) with true in H1. change (2 <? 1) with false in H1.
  change (4 <? 2) with false in H1. cbn in H1. simplify_eq.
  minv H H1.
  unfold wave_setframerate, wave_check_unwritten, wave_update in H1.
  autounfold with monad_ops in H1. cbn in H1.
  change (0 =? 0) with true in H1. cbn in H1.
  destruct (sample_rate md <=? 0) eqn:Hr; [done|]. cbn in H1. simplify_eq.
  apply Z.ltb_ge in Hc. apply Z.leb_gt in Hr.
  split; [lia|]. split; [lia|]. exact H.
Qed.

Ltac prim H :=
  unfold wave_open, wave_file, file_write, file_tell, file_seek,
    file_content, wave_update, lift, emit in H;
  autounfold with monad_ops in H;
  unfold set_fs, set_tmp_pos, set_wav, add_events in H;
  cbn in H;
  rewrite ?lookup_insert_eq, ?insert_insert_eq in H;
  cbn in H.

Ltac proj H :=
  cbn [w_file w_nchannels w_sampwidth w_framerate w_nframes w_nframeswritten
       w_datawritten w_datalength w_headerwritten w_form_length_pos
       w_data_length_pos fs tmp_pos wav trace] in H.

Ltac mprim H :=
  let H1 := fresh "Hm" in minv H H1; prim H1; simplify_eq; proj H.

Ltac mraise H := autounfold with monad_ops in H; done.

Lemma pack_unsigned_inv n v b :
  pack_unsigned n v = Ret b → 0 ≤ v < 2 ^ (8 * Z.of_nat n) ∧ b = le_bytes n v.
Proof.
  unfold pack_unsigned.
  destruct (0 <=? v) eqn:H0; [|done]. destruct (v <? _) eqn:H1; [|done].
  cbn. intros [= <-]. apply Z.leb_le in H0. apply Z.ltb_lt in H1. done.
Qed.

Lemma pack_header_inv dl ch rate sw hdr :
  pack_header dl ch rate sw = Ret hdr →
  0 ≤ 36 + dl < 2 ^ 32 ∧ 0 ≤ ch < 2 ^ 16 ∧ 0 ≤ rate < 2 ^ 32
  ∧ 0 ≤ ch * rate * sw < 2 ^ 32 ∧ 0 ≤ ch * sw < 2 ^ 16
  ∧ hdr = (le_bytes 4 (36 + dl) ++ list_byte_of_string "WAVE"
           ++ list_byte_of_string "fmt " ++ le_bytes 4 16
           ++ le_bytes 2 WAVE_FORMAT_PCM ++ le_bytes 2 ch ++ le_bytes 4 rate
           ++ le_bytes 4 (ch * rate * sw) ++ le_bytes 2 (ch * sw)
           ++ le_bytes 2 (sw * 8) ++ list_byte_of_string "data")%list.
Proof.
  unfold pack_header.
  repeat match goal with
         | |- context [pack_unsigned ?n ?v] =>
             let H := fresh "Hp" in
             destruct (pack_unsigned n v) eqn:H;
             [apply pack_unsigned_inv in H as [? ->]|]
         end; try done.
  intros [= <-]. repeat split; tauto.
Qed.

Lemma write_wav_returns path md data m t wv w' :
  write_wav path md data
    {| fs := <[path := []]> m; tmp_pos := 0; wav := wv; trace := t |}
  = (Ret tt, w') →
  fs w' = <[path := wav_image (channel md) (sample_rate md) data]> m
  ∧ trace w' = t
  ∧ wav_fields_fit (channel md) (sample_rate md) data.
Proof.
  intros H. unfold write_wav in H.
  mprim H.
  apply try_finally_ret_inv in H as (w2 & H & Hclose).
  apply setters_inv in H as (Hc1 & Hr1 & H).
  unfold wave_writeframes in H.
  minv H Hraw. unfold wave_writeframesraw in Hraw.
  minv Hraw Hhdr. unfold wave_ensure_header_written in Hhdr.
  mprim Hhdr.
  destruct (channel md =? 0) eqn:Hc0; [mraise Hhdr|].
  change (2 =? 0) with false in Hhdr. cbn iota in Hhdr.
  destruct (sample_rate md =? 0) eqn:Hr0; [mraise Hhdr|].
  unfold wave_write_header in Hhdr.
  mprim Hhdr. mprim Hhdr.
  mprim Hhdr. change (0 =? 0) with true in Hhdr. cbn iota in Hhdr.
  mprim Hhdr. mprim Hhdr.
  minv Hhdr H1. prim H1. injection H1 as H1 <-.
  apply pack_header_inv in H1 as (Hform & Hch & Hrate & Hbyte & Hblock & ->).
  mprim Hhdr. mprim Hhdr.
  minv Hhdr H1. prim H1. injection H1 as H1 <-.
  apply pack_unsigned_inv in H1 as (Hdl & ->).
  mprim Hhdr. prim Hhdr. injection Hhdr as <- <-.
  mprim Hraw. mprim Hraw. mprim Hraw. prim Hraw. injection Hraw as <- <-.
  mprim H.
  match type of H with context [negb (?D =? ?L)] =>
    destruct (D =? L) eqn:Hpatch end; cbn [negb] in H.
  - (* the header already holds the length written *)
    prim H. injection H as <-.
    unfold wave_close in Hclose.
    apply try_finally_ret_inv in Hclose as (w3 & Hclose & Hnone).
    mprim Hclose. cbn iota in Hclose.
    minv Hclose Hens. unfold wave_ensure_header_written in Hens.
    mprim Hens. cbn iota in Hens. prim Hens. injection Hens as <- <-.
    mprim Hclose. rewrite Hpatch in Hclose. cbn [negb] in Hclose.
    prim Hclose. injection Hclose as <-.
    prim Hnone. injection Hnone as <-.
    cbn [fs trace].
    apply Z.eqb_eq in Hpatch. rewrite Z.add_0_l in Hpatch.
    rewrite Hpatch in *. clear Hpatch.
    split; [|split; [reflexivity|]].
    + f_equal. unfold write_at, wav_image. cbn.
      rewrite drop_nil, app_nil_r. reflexivity.
    + unfold wav_fields_fit.
      change (2 ^ 32) with 4294967296 in *. change (2 ^ 16) with 65536 in *.
      lia.
  - (* the header is patched with the length written *)
    unfold wave_patchheader in H. mprim H.
    rewrite Z.eqb_sym, Hpatch in H.
    mprim H. mprim H. mprim H.
    minv H H1. prim H1. injection H1 as H1 <-.
    apply pack_unsigned_inv in H1 as (Hform' & ->).
    mprim H. mprim H.
    minv H H1. prim H1. injection H1 as H1 <-.
    apply pack_unsigned_inv in H1 as (Hdl' & ->).
    mprim H. mprim H. prim H. injection H as <-.
    unfold wave_close in Hclose.
    apply try_finally_ret_inv in Hclose as (w3 & Hclose & Hnone).
    mprim Hclose. cbn iota in Hclose.
    minv Hclose Hens. unfold wave_ensure_header_written in Hens.
    mprim Hens. cbn iota in Hens. prim Hens. injection Hens as <- <-.
    mprim Hclose. rewrite Z.eqb_refl in Hclose. cbn [negb] in Hclose.
    prim Hclose. injection Hclose as <-.
    prim Hnone. injection Hnone as <-.
    cbn [fs trace]. rewrite Z.add_0_l in *.
    split; [|split; [reflexivity|]].
    + f_equal. unfold write_at, wav_image. cbn.
      rewrite ?drop_nil, ?app_nil_r. reflexivity.
    + unfold wav_fields_fit.
      change (2 ^ (8 * Z.of_nat 4)) with 4294967296 in *.
      change (2 ^ 32) with 4294967296 in *. change (2 ^ 16) with 65536 in *.
      lia.
Qed.

Lemma quiet_ret {A} (a : A) : quiet (ret a).
Proof. done. Qed.

Lemma quiet_raise {A} (e : exn) : quiet (raise (A := A) e).
Proof. done. Qed.

Lemma quiet_lift {A} (r : res A) : quiet (lift r).
Proof. by destruct r. Qed.

Lemma quiet_gets {A} (f : World → A) : quiet (gets f).
Proof. done. Qed.

Lemma quiet_bind {A B} (m : M World A) (k : A → M World B) :
  quiet m → (∀ a, quiet (k a)) → quiet (bind m k).
Proof.
  intros Hm Hk w. unfold bind. specialize (Hm w).
  destruct (m w) as [[a|e] w1]; cbn in *; [|done].
  destruct Hm as [Ht Hf]. destruct (Hk a w1) as [Ht' Hf'].
  split; [congruence|auto].
Qed.

Lemma quiet_try_finally {A} (body : M World A) (cleanup : M World unit) :
  quiet body → quiet cleanup → quiet (try_finally body cleanup).
Proof.
  intros Hb Hc w. unfold try_finally. specialize (Hb w).
  destruct (body w) as [r w1]; cbn in *. specialize (Hc w1).
  destruct Hb as [Ht Hf], Hc as [Ht' Hf'].
  destruct (cleanup w1) as [[[]|e] w2]; cbn in *; split; (congruence || auto).
Qed.

Lemma quiet_wave_update f : quiet (wave_update f).
Proof. done. Qed.

Lemma quiet_file_seek p : quiet (file_seek p).
Proof. done. Qed.

Lemma quiet_file_write path b : quiet (file_write path b).
Proof.
  intros w. split; [done|]. intros p Hp. cbn.
  destruct (decide (p = path)) as [->|Hne].
  - rewrite lookup_insert_eq. eauto.
  - by rewrite lookup_insert_ne.
Qed.

Create HintDb quiet.
#[global] Hint Resolve quiet_ret quiet_raise quiet_lift quiet_gets
  quiet_wave_update quiet_file_seek quiet_file_write : quiet.

Ltac quiet_step :=
  lazymatch goal with
  | |- quiet (bind _ _) => apply quiet_bind; [|intros ?]
  | |- quiet (try_finally _ _) => apply quiet_try_finally
  | |- quiet (if ?b then _ else _) => destruct b
  | |- quiet (match ?o with Some _ => _ | None => _ end) => destruct o
  | |- _ => solve [auto with quiet]
  end.

Lemma quiet_wave_file : quiet wave_file.
Proof. unfold wave_file. repeat quiet_step. Qed.

Lemma quiet_file_tell : quiet file_tell.
Proof. unfold file_tell. repeat quiet_step. Qed.

Lemma quiet_wave_check_unwritten : quiet wave_check_unwritten.
Proof. unfold wave_check_unwritten. repeat quiet_step. Qed.

#[global] Hint Resolve quiet_wave_file quiet_file_tell
  quiet_wave_check_unwritten : quiet.

Lemma quiet_wave_setnchannels n : quiet (wave_setnchannels n).
Proof. unfold wave_setnchannels. repeat quiet_step. Qed.

Lemma quiet_wave_setsampwidth n : quiet (wave_setsampwidth n).
Proof. unfold wave_setsampwidth. repeat quiet_step. Qed.

Lemma quiet_wave_setframerate n : quiet (wave_setframerate n).
Proof. unfold wave_setframerate. repeat quiet_step. Qed.

Lemma quiet_wave_write_header n : quiet (wave_write_header n).
Proof. unfold wave_write_header. repeat quiet_step. Qed.

#[global] Hint Resolve quiet_wave_setnchannels quiet_wave_setsampwidth
  quiet_wave_setframerate quiet_wave_write_header : quiet.

Lemma quiet_wave_ensure_header_written n : quiet (wave_ensure_header_written n).
Proof. unfold wave_ensure_header_written. repeat quiet_step. Qed.

Lemma quiet_wave_patchheader : quiet wave_patchheader.
Proof. unfold wave_patchheader. repeat quiet_step. Qed.

#[global] Hint Resolve quiet_wave_ensure_header_written
  quiet_wave_patchheader : quiet.

Lemma quiet_wave_writeframesraw data : quiet (wave_writeframesraw data).
Proof. unfold wave_writeframesraw. repeat quiet_step. Qed.

#[global] Hint Resolve quiet_wave_writeframesraw : quiet.

Lemma quiet_wave_writeframes data : quiet (wave_writeframes data).
Proof. unfold wave_writeframes. repeat quiet_step. Qed.

Lemma quiet_wave_close : quiet wave_close.
Proof. unfold wave_close. repeat quiet_step. Qed.

Lemma quiet_wave_open file : quiet (wave_open file).
Proof. unfold wave_open. repeat quiet_step. Qed.

#[global] Hint Resolve quiet_wave_writeframes quiet_wave_close
  quiet_wave_open : quiet.

Lemma quiet_write_wav path md data : quiet (write_wav path md data).
Proof. unfold write_wav. repeat quiet_step. Qed.

Lemma bind_fwd {S A B} (m : M S A) (k : A → M S B) s a s1 r :
  m s = (Ret a, s1) → k a s1 = r → bind m k s = r.
Proof. unfold bind. by intros -> <-. Qed.

Lemma try_finally_fwd {S A} (body : M S A) (cleanup : M S unit) s a s1 s2 :
  body s = (Ret a, s1) → cleanup s1 = (Ret tt, s2) →
  try_finally body cleanup s = (Ret a, s2).
Proof. unfold try_finally. by intros -> ->. Qed.

Lemma pack_unsigned_fits n v :
  0 ≤ v < 2 ^ (8 * Z.of_nat n) → pack_unsigned n v = Ret (le_bytes n v).
Proof.
  intros [H0 H1]. unfold pack_unsigned.
  apply Z.leb_le in H0. apply Z.ltb_lt in H1. by rewrite H0, H1.
Qed.

Lemma pack_header_fits dl ch rate sw :
  0 ≤ 36 + dl < 2 ^ 32 → 0 ≤ ch < 2 ^ 16 → 0 ≤ rate < 2 ^ 32 →
  0 ≤ ch * rate * sw < 2 ^ 32 → 0 ≤ ch * sw < 2 ^ 16 → 0 ≤ sw * 8 < 2 ^ 16 →
  ∃ hdr, pack_header dl ch rate sw = Ret hdr.
Proof.
  intros. unfold pack_header.
  rewrite !pack_unsigned_fits by (done || (unfold WAVE_FORMAT_PCM; cbn; lia)).
  eauto.
Qed.

Ltac fprim :=
  unfold wave_open, wave_file, file_write, file_tell, file_seek,
    file_content, wave_update, wave_check_unwritten, lift, emit;
  autounfold with monad_ops;
  unfold set_fs, set_tmp_pos, set_wav, add_events;
  cbn;
  rewrite ?lookup_insert_eq, ?insert_insert_eq;
  cbn.

Ltac gproj :=
  cbn [w_file w_nchannels w_sampwidth w_framerate w_nframes w_nframeswritten
       w_datawritten w_datalength w_headerwritten w_form_length_pos
       w_data_length_pos fs tmp_pos wav trace].

Ltac fstep := eapply bind_fwd; [fprim; reflexivity|]; cbv beta; gproj.

Lemma setters_fit path md m t :
  1 ≤ channel md → 1 ≤ sample_rate md →
  ∀ (k : M World unit) r,
    k {| fs := m; tmp_pos := 0; wav := wave_set path md; trace := t |} = r →
    (run wave_setnchannels (channel md);
     run wave_setsampwidth 2;
     run wave_setframerate (sample_rate md);
     k)
      {| fs := m; tmp_pos := 0; wav := wave_initfp path; trace := t |} = r.
Proof.
  intros Hc Hr k r Hk.
  assert (Hc1 : (channel md <? 1) = false) by (apply Z.ltb_ge; lia).
  assert (Hr1 : (sample_rate md <=? 0) = false) by (apply Z.leb_gt; lia).
  eapply bind_fwd.
  { unfold wave_setnchannels. fprim. change (0 =? 0) with true. cbn.
    rewrite Hc1. cbn. reflexivity. }
  eapply bind_fwd.
  { unfold wave_setsampwidth. fprim. change (0 =? 0) with true.
    change (2 <? 1) with false. change (4 <? 2) with false. cbn.
    reflexivity. }
  eapply bind_fwd.
  { unfold wave_setframerate. fprim. change (0 =? 0) with true. cbn.
    rewrite Hr1. cbn. reflexivity. }
  exact Hk.
Qed.

Lemma writeframesraw_fits path md data m t :
  wav_fields_fit (channel md) (sample_rate md) data →
  ∃ f p,
    wave_writeframesraw data
      {| fs := m; tmp_pos := 0; wav := wave_set path md; trace := t |}
    = (Ret tt,
       {| fs := f; tmp_pos := p;
          wav :=
            {| w_file := Some path; w_nchannels := channel md;
               w_sampwidth := 2; w_framerate := sample_rate md;
               w_nframes := Z.of_nat (length data) / (channel md * 2);
               w_nframeswritten :=
                 0 + Z.of_nat (length data) / (2 * channel md);
               w_datawritten := 0 + Z.of_nat (length data);
               w_datalength :=
                 Z.of_nat (length data) / (channel md * 2) * channel md * 2;
               w_headerwritten := true;
               w_form_length_pos := 4; w_data_length_pos := 40 |};
          trace := t |}).
Proof.
  intros (Hc & Hb & Hr & Hbr & Hl).
  assert (Hc0 : (channel md =? 0) = false) by (apply Z.eqb_neq; lia).
  assert (Hr0 : (sample_rate md =? 0) = false) by (apply Z.eqb_neq; lia).
  assert (HD : 0 ≤ Z.of_nat (length data) / (channel md * 2) * channel md * 2
               ≤ Z.of_nat (length data)).
  { pose proof (Z.mul_div_le (Z.of_nat (length data)) (channel md * 2)).
    pose proof (Z.div_pos (Z.of_nat (length data)) (channel md * 2)).
    nia. }
  destruct (pack_header_fits
              (Z.of_nat (length data) / (channel md * 2) * channel md * 2)
              (channel md) (sample_rate md) 2) as [hdr Hhdr];
    try (change (2 ^ 32) with 4294967296; change (2 ^ 16) with 65536; lia).
  pose proof Hhdr as Hlen.
  apply pack_header_inv in Hlen as (_ & _ & _ & _ & _ & Hlen).
  eexists _, _. unfold wave_writeframesraw, wave_set.
  eapply bind_fwd.
  { unfold wave_ensure_header_written. fstep. rewrite Hc0.
    change (2 =? 0) with false. cbn iota. rewrite Hr0.
    unfold wave_write_header.
    fstep. fstep. fstep. change (0 =? 0) with true. cbn iota.
    fstep. fstep.
    eapply bind_fwd; [unfold lift; rewrite Hhdr; reflexivity|]. cbv beta.
    fstep. fstep.
    eapply bind_fwd.
    { unfold lift. rewrite pack_unsigned_fits; [reflexivity|].
      change (2 ^ (8 * Z.of_nat 4)) with 4294967296. lia. }
    cbv beta. fstep. fprim. reflexivity. }
  fstep. fstep. fstep. fprim.
  rewrite Hlen. cbn. reflexivity.
Qed.

Lemma write_wav_fits path md data m t wv :
  wav_fields_fit (channel md) (sample_rate md) data →
  ∃ w', write_wav path md data
          {| fs := <[path := []]> m; tmp_pos := 0; wav := wv; trace := t |}
        = (Ret tt, w').
Proof.
  intros Hfit.
  destruct (writeframesraw_fits path md data (<[path := []]> m) t Hfit)
    as (f & p & Hraw).
  destruct Hfit as (Hc & Hb & Hr & Hbr & Hl).
  unfold write_wav.
  destruct (Z.of_nat (length data) / (channel md * 2) * channel md * 2
            =? 0 + Z.of_nat (length data)) eqn:Hpatch.
  - eexists. fstep. eapply try_finally_fwd.
    + apply setters_fit; [lia..|]. unfold wave_writeframes.
      eapply bind_fwd; [exact Hraw|]. fstep. rewrite Hpatch. cbn [negb].
      fprim. reflexivity.
    + unfold wave_close. eapply try_finally_fwd; [|fprim; reflexivity].
      fstep. cbn iota.
      eapply bind_fwd.
      { unfold wave_ensure_header_written. fstep. cbn iota. fprim.
        reflexivity. }
      fstep. rewrite Hpatch. cbn [negb]. fprim. reflexivity.
  - eexists. fstep. eapply try_finally_fwd.
    + apply setters_fit; [lia..|]. unfold wave_writeframes.
      eapply bind_fwd; [exact Hraw|]. fstep. rewrite Hpatch. cbn [negb].
      unfold wave_patchheader. fstep. rewrite Z.eqb_sym, Hpatch.
      fstep. fstep. fstep.
      eapply bind_fwd.
      { unfold lift. rewrite pack_unsigned_fits; [reflexivity|].
        change (2 ^ (8 * Z.of_nat 4)) with 4294967296. lia. }
      cbv beta. fstep. fstep.
      eapply bind_fwd.
      { unfold lift. rewrite pack_unsigned_fits; [reflexivity|].
        change (2 ^ (8 * Z.of_nat 4)) with 4294967296. lia. }
      cbv beta. fstep. fstep. fprim. reflexivity.
    + unfold wave_close. eapply try_finally_fwd; [|fprim; reflexivity].
      fstep. cbn iota.
      eapply bind_fwd.
      { unfold wave_ensure_header_written. fstep. cbn iota. fprim.
        reflexivity. }
      fstep. rewrite Z.eqb_refl. cbn [negb]. fprim. reflexivity.
Qed.

Lemma Z_of_byte_of_Z z : 0 ≤ z < 256 → Z_of_byte (byte_of_Z z) = z.
Proof.
  intros Hz. unfold Z_of_byte, byte_of_Z.
  destruct (Byte.of_N (Z.to_N z)) as [b|] eqn:Hb.
  - apply Byte.to_of_N in Hb. cbn. rewrite Hb. lia.
  - apply Byte.of_N_None_iff in Hb. lia.
Qed.

Lemma le_value_le_bytes n v :
  0 ≤ v < 2 ^ (8 * Z.of_nat n) → le_value (le_bytes n v) = v.
Proof.
  revert v. induction n as [|n IH]; intros v Hv.
  - change (2 ^ (8 * Z.of_nat 0)) with 1 in Hv. cbn. lia.
  - replace (8 * Z.of_nat (S n)) with (8 + 8 * Z.of_nat n) in Hv by lia.
    rewrite Z.pow_add_r in Hv by lia. change (2 ^ 8) with 256 in Hv.
    cbn [le_bytes le_value].
    rewrite Z_of_byte_of_Z by (apply Z.mod_pos_bound; lia).
    rewrite IH.
    + pose proof (Z.div_mod v 256). lia.
    + split; [apply Z.div_pos; lia|].
      apply Z.div_lt_upper_bound; lia.
Qed.

Lemma wav_image_length ch rate data :
  length (wav_image ch rate data) = (44 + length data)%nat.
Proof. reflexivity. Qed.

(** The file the writer leaves reads back as the buffer with the declared
    channel count and sample rate, at 16 bits a sample. *)
Lemma wave_read_wav_image ch rate data :
  wav_fields_fit ch rate data →
  wave_read (wav_image ch rate data)
  = Some {| wav_channels := ch; wav_rate := rate; wav_bits := 16;
            wav_frames := data |}.
Proof.
  intros (Hc & Hb & Hr & Hbr & Hl). unfold wave_read.
  assert (H1 : slice 0 4 (wav_image ch rate data) = list_byte_of_string "RIFF")
    by reflexivity.
  assert (H2 : slice 8 8 (wav_image ch rate data)
               = list_byte_of_string "WAVEfmt ") by reflexivity.
  assert (H3 : le_value (slice 20 2 (wav_image ch rate data)) = WAVE_FORMAT_PCM)
    by reflexivity.
  assert (H4 : slice 36 4 (wav_image ch rate data) = list_byte_of_string "data")
    by reflexivity.
  assert (H5 : le_value (slice 40 4 (wav_image ch rate data))
               = Z.of_nat (length (wav_image ch rate data) - 44)).
  { change (slice 40 4 (wav_image ch rate data))
      with (le_bytes 4 (Z.of_nat (length data))).
    replace (length (wav_image ch rate data) - 44)%nat with (length data)
      by (rewrite wav_image_length; lia).
    apply le_value_le_bytes.
    change (2 ^ (8 * Z.of_nat 4)) with 4294967296. lia. }
  rewrite (bool_decide_eq_true_2 _ H1), (bool_decide_eq_true_2 _ H2),
    (bool_decide_eq_true_2 _ H3), (bool_decide_eq_true_2 _ H4),
    (bool_decide_eq_true_2 _ H5).
  cbn [andb]. f_equal.
  change (slice 22 2 (wav_image ch rate data)) with (le_bytes 2 ch).
  change (slice 24 4 (wav_image ch rate data)) with (le_bytes 4 rate).
  change (slice 34 2 (wav_image ch rate data)) with (le_bytes 2 16).
  change (drop 44 (wav_image ch rate data)) with data.
  rewrite !le_value_le_bytes;
    [reflexivity|
     change (2 ^ (8 * Z.of_nat 2)) with 65536;
     change (2 ^ (8 * Z.of_nat 4)) with 4294967296; lia ..].
Qed.

(** ** The processing of a stream *)

#[local] Arguments write_wav : simpl never.

Lemma accumulate_loop_run cs data w :
  accumulate_loop data cs w
  = (Ret (data ++ concat cs)%list,
     add_events (replicate (length cs) EvPull) w).
Proof.
  revert data w. induction cs as [|c cs IH]; intros data w.
  - cbn. rewrite app_nil_r. unfold ret, add_events. rewrite app_nil_r.
    by destruct w.
  - cbn [accumulate_loop]. unfold bind, emit, modify. rewrite IH.
    cbn. unfold add_events. cbn. rewrite <- !app_assoc. reflexivity.
Qed.

Lemma accumulate_run stream w :
  accumulate stream w
  = (match stream_failure stream with
     | None => Ret (concat (chunks stream))
     | Some e => Raise e
     end,
     add_events (pulls (length (chunks stream))) w).
Proof.
  unfold accumulate, bind. rewrite accumulate_loop_run. cbn.
  unfold emit, modify, add_events, pulls. cbn.
  rewrite <- app_assoc.
  replace (replicate (length (chunks stream)) EvPull ++ [EvPull])%list
    with (EvPull :: replicate (length (chunks stream)) EvPull).
  - by destruct (stream_failure stream).
  - induction (length (chunks stream)) as [|n IH]; [done|].
    cbn. by rewrite <- IH.
Qed.

Lemma process_try_run env self md data w :
  process_try env self md data w =
  match env_mkstemp env ".wav" with
  | Raise e => (Raise e, w)
  | Ret p =>
      match write_wav p md data (staged p w) with
      | (Raise e, w2) => (Raise e, w2)
      | (Ret _, w2) =>
          let content := default [] (fs w2 !! p) in
          let w3 :=
            add_events [EvTranscribe (ent_model self) content (language md)] w2 in
          match env_remote env (ent_client self) (ent_model self) content
                  (language md) with
          | Ret t =>
              (match transcription_text t with
               | Ret v => Ret {| text := v; result := SUCCESS |}
               | Raise e => Raise e
               end, w3)
          | Raise e => (Raise e, w3)
          end
      end
  end.
Proof.
  unfold process_try, NamedTemporaryFile, transcriptions_create, tempfile_exit,
    file_content, file_seek, emit.
  autounfold with monad_ops. cbn.
  destruct (env_mkstemp env ".wav") as [p|e]; [|reflexivity]. cbn.
  unfold staged, set_fs, set_tmp_pos, add_events. cbn.
  destruct (write_wav p md data _) as [[[]|e] w2]; [|reflexivity]. cbn.
  destruct (env_remote _ _ _ _ _) as [t|e]; [|reflexivity].
  by destruct (transcription_text t).
Qed.

Lemma process_buffer_run env self md data w :
  data ≠ [] →
  process_buffer env self md data w =
  match env_mkstemp env ".wav" with
  | Raise e => (Ret failure, w)
  | Ret p =>
      match write_wav p md data (staged p w) with
      | (Raise e, w2) => (Ret failure, w2)
      | (Ret _, w2) =>
          let content := default [] (fs w2 !! p) in
          (Ret (result_of_answer
                  (env_remote env (ent_client self) (ent_model self) content
                     (language md))),
           add_events [EvTranscribe (ent_model self) content (language md)] w2)
      end
  end.
Proof.
  intros Hne. unfold process_buffer. destruct data as [|b data]; [done|].
  unfold try_except. rewrite process_try_run.
  destruct (env_mkstemp env ".wav") as [p|e]; [|reflexivity].
  destruct (write_wav p md (b :: data) (staged p w)) as [[[]|e] w2];
    [|reflexivity].
  cbv zeta. destruct (env_remote _ _ _ _ _) as [t|e]; [|reflexivity].
  cbn. by destruct (transcription_text t).
Qed.

(** The three ways the processing of a non-empty buffer ends. *)
Lemma process_buffer_cases env self md data w :
  data ≠ [] →
  match env_mkstemp env ".wav" with
  | Raise _ => process_buffer env self md data w = (Ret failure, w)
  | Ret p =>
      (wav_fields_fit (channel md) (sample_rate md) data
       ∧ (process_buffer env self md data w).1
         = Ret (result_of_answer (answer env self md data))
       ∧ fs (process_buffer env self md data w).2
         = <[p := wav_image (channel md) (sample_rate md) data]> (fs w)
       ∧ trace (process_buffer env self md data w).2
         = (trace w
            ++ [EvTempFile p;
                EvTranscribe (ent_model self)
                  (wav_image (channel md) (sample_rate md) data)
                  (language md)])%list)
      ∨ (¬ wav_fields_fit (channel md) (sample_rate md) data
         ∧ (process_buffer env self md data w).1 = Ret failure
         ∧ (∀ q, q = p ∨ is_Some (fs w !! q) →
                 is_Some (fs (process_buffer env self md data w).2 !! q))
         ∧ trace (process_buffer env self md data w).2
           = (trace w ++ [EvTempFile p])%list)
  end.
Proof.
  intros Hne. rewrite process_buffer_run by done.
  destruct (env_mkstemp env ".wav") as [p|e]; [|reflexivity].
  destruct (write_wav p md data (staged p w)) as [[[]|e] w2] eqn:Hw.
  - left. apply write_wav_returns in Hw as (Hfs & Ht & Hfit).
    cbn [fst snd]. cbv zeta. rewrite Hfs, lookup_insert_eq. cbn [default].
    split; [done|]. split; [reflexivity|]. split; [done|].
    cbn. rewrite Ht, <- app_assoc. reflexivity.
  - right. pose proof (quiet_write_wav p md data (staged p w)) as [Ht Hf].
    rewrite Hw in Ht, Hf. cbn [fst snd] in *. split.
    + intros Hfit.
      destruct (write_wav_fits p md data (fs w) (trace w ++ [EvTempFile p])
                  (wav w) Hfit) as [w' Hw'].
      unfold staged in Hw. rewrite Hw in Hw'. done.
    + split; [reflexivity|]. split; [|exact Ht].
      intros q Hq. apply Hf. cbn.
      destruct (decide (q = p)) as [->|Hqp].
      * rewrite lookup_insert_eq. eauto.
      * rewrite lookup_insert_ne by done. by destruct Hq.
Qed.

Lemma async_process_audio_stream_run env self md stream w :
  async_process_audio_stream env self md stream w =
  match stream_failure stream with
  | None =>
      process_buffer env self md (concat (chunks stream))
        (add_events (pulls (length (chunks stream))) w)
  | Some e => (Raise e, add_events (pulls (length (chunks stream))) w)
  end.
Proof.
  unfold async_process_audio_stream, bind. rewrite accumulate_run.
  by destruct (stream_failure stream).
Qed.

(** The events the processing of a buffer adds. *)
Lemma process_buffer_events env self md data w :
  ∃ evs,
    trace (process_buffer env self md data w).2 = (trace w ++ evs)%list
    ∧ (evs = []
       ∨ ∃ p, env_mkstemp env ".wav" = Ret p ∧ data ≠ []
              ∧ (evs = [EvTempFile p]
                 ∨ evs = [EvTempFile p;
                          EvTranscribe (ent_model self)
                            (wav_image (channel md) (sample_rate md) data)
                            (language md)])).
Proof.
  destruct (decide (data = [])) as [->|Hne].
  { exists []. cbn. rewrite app_nil_r. auto. }
  pose proof (process_buffer_cases env self md data w Hne) as Hc.
  destruct (env_mkstemp env ".wav") as [p|e].
  - destruct Hc as [(_ & _ & _ & Ht)|(_ & _ & _ & Ht)];
      eexists; (split; [exact Ht|]); right; exists p; auto.
  - rewrite Hc. exists []. cbn. rewrite app_nil_r. auto.
Qed.

Lemma frame_iter cs n :
  fr_data (Nat.iter n frame_step (frame_start cs)) = concat (take n cs)
  ∧ fr_pending (Nat.iter n frame_step (frame_start cs)) = drop n cs
  ∧ (fr_exhausted (Nat.iter n frame_step (frame_start cs)) = true →
     (length cs < n)%nat).
Proof.
  induction n as [|n (Hd & Hp & He)]; [by cbn|].
  rewrite !Nat.iter_succ. revert Hd Hp He.
  generalize (Nat.iter n frame_step (frame_start cs)). intros fr Hd Hp He.
  unfold frame_step. rewrite Hp.
  destruct (drop n cs) as [|c rest] eqn:Hdrop; cbn.
  - apply drop_nil_inv in Hdrop.
    rewrite Hd, !take_ge, drop_ge by lia. split; [reflexivity|].
    split; [reflexivity|]. intros _. lia.
  - assert (Hc : cs !! n = Some c).
    { rewrite <- (Nat.add_0_r n), <- lookup_drop, Hdrop. reflexivity. }
    rewrite (take_S_r _ _ _ Hc), concat_app, Hd. cbn. rewrite app_nil_r.
    split; [reflexivity|]. split; [|done].
    replace (S n) with (n + 1)%nat by lia.
    rewrite <- drop_drop, Hdrop. reflexivity.
Qed.

Lemma run_schedule_lookup schedule pool i :
  run_schedule schedule pool !! i
  = Nat.iter (count_occ Nat.eq_dec schedule i) frame_step <$> pool !! i.
Proof.
  revert pool. induction schedule as [|j s IH]; intros pool.
  { cbn. by destruct (pool !! i). }
  unfold run_schedule in *. cbn [fold_left]. rewrite IH. unfold pool_step.
  cbn [count_occ]. destruct (Nat.eq_dec j i) as [->|Hne].
  - rewrite list_lookup_alter, decide_True by done.
    destruct (pool !! i); [|done].
    cbn -[Nat.iter]. by rewrite Nat.iter_succ_r.
  - by rewrite list_lookup_alter, decide_False.
Qed.

(** C1, amended. For a stream whose chunks amount to a non-empty buffer:
    an exception the stream itself raises while it is pulled is raised to
    the caller; once the stream has ended, the call returns a result and
    raises nothing, namely the text of the answer with [SUCCESS] when the
    file was staged and the remote call returned an answer object (the text
    being [None] for an answer with no text), and the empty text with
    [ERROR] when the file could not be staged, when the remote call raised,
    and when what it returned is no answer object. *)
Theorem nonempty_buffer_yields_result (env : Env) (self : Entity)
    (md : SpeechMetadata) (stream : Stream) (w : World) :
  concat (chunks stream) ≠ [] →
  (∀ e, stream_failure stream = Some e →
        (async_process_audio_stream env self md stream w).1 = Raise e)
  ∧ (stream_failure stream = None →
     ∃ r w',
       async_process_audio_stream env self md stream w = (Ret r, w')
       ∧ (∀ t v, staging_succeeds env md (concat (chunks stream)) →
                 answer env self md (concat (chunks stream)) = Ret t →
                 transcription_text t = Ret v →
                 r = {| text := v; result := SUCCESS |})
       ∧ (¬ staging_succeeds env md (concat (chunks stream))
          ∨ (∃ e, answer env self md (concat (chunks stream)) = Raise e)
          ∨ (∃ t e, answer env self md (concat (chunks stream)) = Ret t
                    ∧ transcription_text t = Raise e) →
          r = {| text := ""; result := ERROR |})).
Proof.
  intros Hne. rewrite async_process_audio_stream_run. split.
  { intros e He. by rewrite He. }
  intros Hend. rewrite Hend.
  set (w0 := add_events _ w).
  pose proof (process_buffer_cases env self md _ w0 Hne) as Hc.
  destruct (process_buffer env self md (concat (chunks stream)) w0)
    as [r' w'] eqn:Hrun.
  unfold staging_succeeds.
  destruct (env_mkstemp env ".wav") as [p|e].
  - destruct Hc as [(Hfit & Hr & _)|(Hfit & Hr & _)]; cbn [fst] in Hr;
      subst r'; eexists _, w'; (split; [reflexivity|]); split.
    + intros t v _ Ha Hv. unfold result_of_answer. by rewrite Ha, Hv.
    + unfold result_of_answer.
      intros [Hn|[[e Ha]|(t & e & Ha & Ht)]];
        [destruct Hn; eauto|by rewrite Ha|by rewrite Ha, Ht].
    + intros t v [_ Hf]. done.
    + done.
  - injection Hc as -> ->. eexists _, w0. split; [reflexivity|]. split.
    + intros t v [[p Hp] _]. done.
    + done.
Qed.

(** C2. When the chunks of a stream that has ended amount to no byte, the
    call returns the empty text with [ERROR]; it has then pulled the stream
    and done nothing else: no file is touched and the remote endpoint is not
    called. *)
Theorem empty_buffer_is_an_error (env : Env) (self : Entity)
    (md : SpeechMetadata) (stream : Stream) (w : World) :
  stream_failure stream = None →
  concat (chunks stream) = [] →
  ∃ w',
    async_process_audio_stream env self md stream w
    = (Ret {| text := ""; result := ERROR |}, w')
    ∧ fs w' = fs w
    ∧ trace w' = (trace w ++ pulls (length (chunks stream)))%list
    ∧ no_remote_call (pulls (length (chunks stream))).
Proof.
  intros Hend Hnil. rewrite async_process_audio_stream_run, Hend.
  unfold process_buffer. rewrite Hnil. eexists. split; [reflexivity|].
  split; [reflexivity|]. split; [reflexivity|].
  intros m f l Hin. unfold pulls in Hin.
  by apply elem_of_replicate in Hin as [? _].
Qed.

(** C6. The stream is pulled to its end before anything else is done, and
    the buffer handed on is the concatenation of its chunks in the order of
    their arrival; what follows pulls the stream no more. Invocations in
    progress on one entity, resumed in any order, each hold the
    concatenation of the chunks their own stream has delivered so far, and
    all of its chunks once they have met its end. *)
Theorem buffer_is_concatenation_of_own_chunks (env : Env) (self : Entity)
    (md : SpeechMetadata) (stream : Stream) (w : World) :
  accumulate stream w
  = (match stream_failure stream with
     | None => Ret (concat (chunks stream))
     | Some e => Raise e
     end,
     add_events (pulls (length (chunks stream))) w)
  ∧ async_process_audio_stream env self md stream w
    = match stream_failure stream with
      | None =>
          process_buffer env self md (concat (chunks stream))
            (add_events (pulls (length (chunks stream))) w)
      | Some e => (Raise e, add_events (pulls (length (chunks stream))) w)
      end
  ∧ (∀ data w0, ∃ evs,
       trace (process_buffer env self md data w0).2 = (trace w0 ++ evs)%list
       ∧ EvPull ∉ evs)
  ∧ (∀ (streams : list (list bytes)) (schedule : list nat) i cs,
       streams !! i = Some cs →
       ∃ fr,
         run_schedule schedule (frame_start <$> streams) !! i = Some fr
         ∧ fr_data fr = concat (take (count_occ Nat.eq_dec schedule i) cs)
         ∧ fr_pending fr = drop (count_occ Nat.eq_dec schedule i) cs
         ∧ (fr_exhausted fr = true → fr_data fr = concat cs)).
Proof.
  split; [apply accumulate_run|].
  split; [apply async_process_audio_stream_run|]. split.
  - intros data w0.
    destruct (process_buffer_events env self md data w0)
      as (evs & Ht & Hevs).
    exists evs. split; [exact Ht|].
    destruct Hevs as [->|(p & _ & _ & [->| ->])]; intros Hin;
      repeat (apply elem_of_cons in Hin as [Hin|Hin]; [done|]);
      by apply elem_of_nil in Hin.
  - intros streams schedule i cs Hi.
    rewrite run_schedule_lookup, list_lookup_fmap, Hi. cbn -[Nat.iter].
    eexists. split; [reflexivity|].
    destruct (frame_iter cs (count_occ Nat.eq_dec schedule i))
      as (Hd & Hp & He).
    split; [exact Hd|]. split; [exact Hp|].
    intros Hex. rewrite Hd, take_ge; [reflexivity|]. specialize (He Hex). lia.
Qed.

(** C7. What a non-empty buffer is sent as is a WAV file: the 44 bytes of
    the header, then the buffer; it reads back as the buffer, with the
    channel count and the sample rate of the metadata and 16 bits a
    sample. *)
Theorem submitted_file_is_wav (env : Env) (self : Entity)
    (md : SpeechMetadata) (data : bytes) (w : World) (evs : list event)
    (m : pyval) (f : bytes) (l : string) :
  data ≠ [] →
  trace (process_buffer env self md data w).2 = (trace w ++ evs)%list →
  EvTranscribe m f l ∈ evs →
  f = wav_image (channel md) (sample_rate md) data
  ∧ length f = (44 + length data)%nat
  ∧ wave_read f
    = Some {| wav_channels := channel md; wav_rate := sample_rate md;
              wav_bits := 16; wav_frames := data |}.
Proof.
  intros Hne Ht Hin.
  pose proof (process_buffer_cases env self md data w Hne) as Hc.
  destruct (env_mkstemp env ".wav") as [p|e].
  - destruct Hc as [(Hfit & _ & _ & Ht')|(_ & _ & _ & Ht')];
      rewrite Ht' in Ht; apply app_inv_head in Ht; subst evs.
    + apply elem_of_cons in Hin as [Hin|Hin]; [done|].
      apply list_elem_of_singleton in Hin. injection Hin as -> -> ->.
      split; [reflexivity|]. split; [apply wav_image_length|].
      by apply wave_read_wav_image.
    + by apply list_elem_of_singleton in Hin.
  - rewrite Hc in Ht. cbn in Ht.
    rewrite <- (app_nil_r (trace w)) in Ht at 1.
    apply app_inv_head in Ht. subst evs. by apply elem_of_nil in Hin.
Qed.

(** C9. While a non-empty buffer is processed, no file is removed, on any
    way out: every file there was is still there, and so is the temporary
    file, once the operating system has made it. *)
Theorem staging_file_is_never_removed (env : Env) (self : Entity)
    (md : SpeechMetadata) (data : bytes) (w : World) :
  data ≠ [] →
  ∃ evs,
    trace (process_buffer env self md data w).2 = (trace w ++ evs)%list
    ∧ no_removal evs
    ∧ (∀ q, is_Some (fs w !! q) →
            is_Some (fs (process_buffer env self md data w).2 !! q))
    ∧ (∀ p, env_mkstemp env ".wav" = Ret p →
            EvTempFile p ∈ evs
            ∧ is_Some (fs (process_buffer env self md data w).2 !! p)).
Proof.
  intros Hne.
  pose proof (process_buffer_cases env self md data w Hne) as Hc.
  destruct (env_mkstemp env ".wav") as [p|e].
  - assert (Hkeep : ∀ q, q = p ∨ is_Some (fs w !! q) →
              is_Some (fs (process_buffer env self md data w).2 !! q)).
    { destruct Hc as [(_ & _ & Hfs & _)|(_ & _ & Hkeep & _)]; [|done].
      intros q Hq. rewrite Hfs. destruct (decide (q = p)) as [->|Hqp].
      - rewrite lookup_insert_eq. eauto.
      - rewrite lookup_insert_ne by done. by destruct Hq. }
    destruct Hc as [(_ & _ & _ & Ht)|(_ & _ & _ & Ht)];
      eexists; (split; [exact Ht|]); (split; [|split]); auto.
    + intros q Hin.
      repeat (apply elem_of_cons in Hin as [Hin|Hin]; [done|]).
      by apply elem_of_nil in Hin.
    + intros p' [= <-]. split; [apply list_elem_of_here|auto].
    + intros q Hin. by apply list_elem_of_singleton in Hin.
    + intros p' [= <-]. split; [apply list_elem_of_here|auto].
  - rewrite Hc. exists []. cbn. rewrite app_nil_r.
    split; [reflexivity|]. split; [|split]; [|done..].
    intros q. apply not_elem_of_nil.
Qed.

(** C10. For a record with no stored unique id, the unique id of the
    entity is the model of the record and nothing else. *)
Theorem legacy_unique_id_is_the_model (generate_entity_id : string → pyval → string)
    (config : dict) (client : Client) (model : pyval) (m : string) :
  config !! UNIQUE_ID = None →
  config !! CONF_MODEL = Some (PStr m) →
  ∃ e, entity_init generate_entity_id config client model = Ret e
       ∧ attr_unique_id e = PStr m.
Proof.
  intros Hu Hm. unfold entity_init, dict_get, getitem. rewrite Hu, Hm. cbn.
  eauto.
Qed.

(** ** The statements on examples *)

Lemma configured_hass_wizard_store :
  wizard_store accept_bracketed_host configured_hass.
Proof.
  split.
  - apply NoDup_singleton.
  - apply Forall_singleton. eexists. split; [reflexivity|].
    vm_compute. reflexivity.
Qed.

(** A whole call: three pulls, the temporary file, the remote call, and
    the text of the answer. *)
Example example_call_succeeds :
  async_process_audio_stream example_env example_entity example_metadata
    example_stream (initial_world ∅)
  = (Ret {| text := "turn on the light"; result := SUCCESS |},
     {| fs := {["/tmp/tmpk3v9.wav" := wav_image 1 16000 example_data]};
        tmp_pos := 48;
        wav := (wave_writer_closed 1 16000 example_data);
        trace := [EvPull; EvPull; EvPull; EvTempFile "/tmp/tmpk3v9.wav";
                  EvTranscribe (PStr "whisper-1")
                    (wav_image 1 16000 example_data) "en"] |}).
Proof. vm_compute. reflexivity. Qed.

(** With no channel declared the writer refuses the parameters, and closing
    it fails again: the call reports an error, the remote endpoint is not
    called, and the temporary file stays behind, empty. *)
Example no_channel_call_fails :
  (async_process_audio_stream example_env example_entity no_channel_metadata
     example_stream (initial_world ∅)).1
  = Ret {| text := ""; result := ERROR |}
  ∧ trace (async_process_audio_stream example_env example_entity
             no_channel_metadata example_stream (initial_world ∅)).2
    = [EvPull; EvPull; EvPull; EvTempFile "/tmp/tmpk3v9.wav"]
  ∧ fs (async_process_audio_stream example_env example_entity
          no_channel_metadata example_stream (initial_world ∅)).2
    = {["/tmp/tmpk3v9.wav" := []]}.
Proof. repeat split; vm_compute; reflexivity. Qed.

(** An exception of the stream itself is met in the loop, before the [try]
    statement, and leaves the call as it is. *)
Example broken_stream_call_raises :
  async_process_audio_stream example_env example_entity example_metadata
    broken_stream (initial_world ∅)
  = (Raise (OSError "connection lost"),
     add_events [EvPull; EvPull] (initial_world ∅)).
Proof. reflexivity. Qed.

Lemma stream_failure_is_raised env self md stream w e :
  stream_failure stream = Some e →
  async_process_audio_stream env self md stream w
  = (Raise e, add_events (pulls (length (chunks stream))) w).
Proof. intros He. by rewrite async_process_audio_stream_run, He. Qed.

Lemma nonempty_buffer_yields_result_witness :
  (∀ e, stream_failure example_stream = Some e →
        (async_process_audio_stream example_env example_entity
           example_metadata example_stream (initial_world ∅)).1 = Raise e)
  ∧ (stream_failure example_stream = None →
     ∃ r w',
       async_process_audio_stream example_env example_entity
         example_metadata example_stream (initial_world ∅) = (Ret r, w')
       ∧ (∀ t v, staging_succeeds example_env example_metadata
                   (concat (chunks example_stream)) →
                 answer example_env example_entity example_metadata
                   (concat (chunks example_stream)) = Ret t →
                 transcription_text t = Ret v →
                 r = {| text := v; result := SUCCESS |})
       ∧ (¬ staging_succeeds example_env example_metadata
              (concat (chunks example_stream))
          ∨ (∃ e, answer example_env example_entity example_metadata
                    (concat (chunks example_stream)) = Raise e)
          ∨ (∃ t e, answer example_env example_entity example_metadata
                      (concat (chunks example_stream)) = Ret t
                    ∧ transcription_text t = Raise e) →
          r = {| text := ""; result := ERROR |})).
Proof.
  apply (nonempty_buffer_yields_result example_env example_entity
           example_metadata example_stream (initial_world ∅)).
  discriminate.
Defined.

(** C1, as stated, fails twice. An exception of the stream is raised to the
    caller; and an answer with no text is no failure: the call returns
    [None] with [SUCCESS]. *)
Lemma stream_exception_and_textless_answer :
  (async_process_audio_stream example_env example_entity example_metadata
     broken_stream (initial_world ∅)).1
  = Raise (OSError "connection lost")
  ∧ concat (chunks example_stream) ≠ []
  ∧ answer textless_env example_entity example_metadata
      (concat (chunks example_stream)) = Ret WithoutText
  ∧ (async_process_audio_stream textless_env example_entity
       example_metadata example_stream (initial_world ∅)).1
    = Ret {| text := TextNone; result := SUCCESS |}.
Proof.
  split; [reflexivity|]. split; [discriminate|]. split; [reflexivity|].
  vm_compute. reflexivity.
Qed.

Lemma empty_buffer_is_an_error_witness :
  ∃ w',
    async_process_audio_stream example_env example_entity example_metadata
      silent_stream (initial_world ∅)
    = (Ret {| text := ""; result := ERROR |}, w')
    ∧ fs w' = fs (initial_world ∅)
    ∧ trace w'
      = (trace (initial_world ∅) ++ pulls (length (chunks silent_stream)))%list
    ∧ no_remote_call (pulls (length (chunks silent_stream))).
Proof.
  apply (empty_buffer_is_an_error example_env example_entity example_metadata
           silent_stream (initial_world ∅)); reflexivity.
Defined.

Lemma buffer_is_concatenation_of_own_chunks_witness :
  ∃ fr,
    run_schedule [0; 1; 0; 1; 1; 0]%nat
      (frame_start <$> [[[x01; x02]; [x03]]; [[x0a]; [x0b; x0c]]]) !! 1%nat
    = Some fr
    ∧ fr_data fr
      = concat (take (count_occ Nat.eq_dec [0; 1; 0; 1; 1; 0]%nat 1%nat)
                  [[x0a]; [x0b; x0c]])
    ∧ fr_pending fr
      = drop (count_occ Nat.eq_dec [0; 1; 0; 1; 1; 0]%nat 1%nat)
          [[x0a]; [x0b; x0c]]
    ∧ (fr_exhausted fr = true → fr_data fr = concat [[x0a]; [x0b; x0c]]).
Proof.
  apply (proj2 (proj2 (proj2
           (buffer_is_concatenation_of_own_chunks example_env example_entity
              example_metadata example_stream (initial_world ∅))))).
  reflexivity.
Defined.

Lemma submitted_file_is_wav_witness :
  wav_image 1 16000 example_data
  = wav_image (channel example_metadata) (sample_rate example_metadata)
      example_data
  ∧ length (wav_image 1 16000 example_data) = (44 + length example_data)%nat
  ∧ wave_read (wav_image 1 16000 example_data)
    = Some {| wav_channels := channel example_metadata;
              wav_rate := sample_rate example_metadata;
              wav_bits := 16; wav_frames := example_data |}.
Proof.
  apply (submitted_file_is_wav example_env example_entity example_metadata
           example_data (initial_world ∅)
           [EvTempFile "/tmp/tmpk3v9.wav";
            EvTranscribe (PStr "whisper-1") (wav_image 1 16000 example_data)
              "en"]
           (PStr "whisper-1") (wav_image 1 16000 example_data) "en").
  - discriminate.
  - vm_compute. reflexivity.
  - apply list_elem_of_further, list_elem_of_here.
Defined.

Lemma staging_file_is_never_removed_witness :
  ∃ evs,
    trace (process_buffer example_env example_entity example_metadata
             example_data (initial_world ∅)).2
    = (trace (initial_world ∅) ++ evs)%list
    ∧ no_removal evs
    ∧ (∀ q, is_Some (fs (initial_world ∅) !! q) →
            is_Some (fs (process_buffer example_env example_entity
                           example_metadata example_data
                           (initial_world ∅)).2 !! q))
    ∧ (∀ p, env_mkstemp example_env ".wav" = Ret p →
            EvTempFile p ∈ evs
            ∧ is_Some (fs (process_buffer example_env example_entity
                             example_metadata example_data
                             (initial_world ∅)).2 !! p)).
Proof.
  apply (staging_file_is_never_removed example_env example_entity
           example_metadata example_data (initial_world ∅)).
  discriminate.
Defined.

Lemma legacy_unique_id_is_the_model_witness :
  ∃ e, entity_init example_entity_id legacy_record
         (ent_client example_entity) (PStr "whisper-1") = Ret e
       ∧ attr_unique_id e = PStr "whisper-1".
Proof.
  apply (legacy_unique_id_is_the_model example_entity_id legacy_record
           (ent_client example_entity) (PStr "whisper-1") "whisper-1");
    reflexivity.
Defined.

Lemma duplicate_submission_aborts_witness :
  submit accept_bracketed_host configured_hass openai_submission
  = (Ret (FlowAbort "already_configured"), configured_hass).
Proof.
  apply (proj1 (duplicate_submission_aborts accept_bracketed_host
                  configured_hass openai_submission
                  configured_hass_wizard_store)
           "api.openai.com_whisper-1").
  - reflexivity.
  - vm_compute. reflexivity.
  - apply list_elem_of_here.
Defined.

Lemma missing_model_is_rejected_witness :
  submit accept_bracketed_host empty_hass no_model_submission
  = (Ret (FlowForm "user" data_schema {["base" := "Model is required"]}
            (Some no_model_submission)),
     empty_hass).
Proof.
  apply (missing_model_is_rejected accept_bracketed_host empty_hass
           no_model_submission).
  reflexivity.
Defined.

(** C5, as stated, fails on a model that is the empty string: the
    submission passes validation and a record is made. *)
Lemma empty_model_is_accepted :
  validate_user_input empty_model_submission = Ret tt
  ∧ (submit accept_bracketed_host empty_hass empty_model_submission).1
    = Ret (FlowCreateEntry "OpenAI Compatible STT (api.openai.com, )"
             (<[UNIQUE_ID := PStr "api.openai.com_"]> empty_model_submission))
  ∧ entry_unique_ids
      (submit accept_bracketed_host empty_hass empty_model_submission).2
    = ["api.openai.com_"].
Proof.
  split; [reflexivity|]. split; vm_compute; reflexivity.
Qed.

Lemma failed_submission_redisplays_form_witness :
  async_step_user accept_bracketed_host empty_hass None
    (Some bad_url_submission)
  = (Ret (FlowForm "user" data_schema
            {["base" := surfaced_message (ValueError "Invalid IPv6 URL")]}
            (Some bad_url_submission)),
     None)
  ∧ host_finish empty_hass
      (async_step_user accept_bracketed_host empty_hass None
         (Some bad_url_submission))
    = empty_hass
  ∧ (∀ msg, ValueError "Invalid IPv6 URL" = ValueError msg →
            surfaced_message (ValueError "Invalid IPv6 URL") = msg).
Proof.
  apply (failed_submission_redisplays_form accept_bracketed_host empty_hass
           None bad_url_submission (ValueError "Invalid IPv6 URL")
           (step_start bad_url_submission None)).
  - vm_compute. reflexivity.
  - discriminate.
Defined.

(** * More facts *)

(** ** The wizard *)

Section WizardMore.

Variable cbh : string -> option string.

(** A submission with a base URL and a model that are strings passes
    validation, and its unique id is derived when the URL can be split. *)
Lemma derivable_submission ui u m h :
  ui !! CONF_URL = Some u →
  ui !! CONF_MODEL = Some (PStr m) →
  urlparse_hostname cbh u = Ret h →
  validate_user_input ui = Ret tt
  ∧ generate_unique_id cbh ui = Ret (py_str_opt h +:+ "_" +:+ m).
Proof.
  intros Hu Hm Hh. split.
  - unfold validate_user_input, dict_get. by rewrite Hm.
  - unfold generate_unique_id, getitem. by rewrite Hu, Hh, Hm.
Qed.

(** The body of the step on such a submission. *)
Lemma step_user_try_known hass ui ctx u m h :
  ui !! CONF_URL = Some u →
  ui !! CONF_MODEL = Some (PStr m) →
  urlparse_hostname cbh u = Ret h →
  step_user_try cbh hass (step_start ui ctx) =
    let uid := py_str_opt h +:+ "_" +:+ m in
    let ui' := <[UNIQUE_ID := PStr uid]> ui in
    if bool_decide (uid ∈ flows_in_progress hass)
    then (Raise (AbortFlow "already_in_progress"), step_start ui' ctx)
    else if bool_decide (uid ∈ entry_unique_ids hass)
         then (Raise (AbortFlow "already_configured"),
               step_start ui' (Some uid))
         else (Ret (FlowCreateEntry (entry_title_of h (PStr m)) ui'),
               step_start ui' (Some uid)).
Proof.
  intros Hu Hm Hh.
  destruct (derivable_submission ui u m h Hu Hm Hh) as [Hv Hg].
  unfold step_user_try, async_set_unique_id, abort_if_unique_id_configured,
    set_user_input.
  run_monad. rewrite Hv, Hg. cbn.
  case_bool_decide; [reflexivity|]. cbn.
  case_bool_decide; [reflexivity|]. cbn.
  unfold getitem. rewrite !lookup_insert_ne by done. rewrite Hu, Hm. cbn.
  rewrite Hh. reflexivity.
Qed.

(** What such a submission comes to, by the flows in progress and the
    records stored. *)
Lemma submit_known hass ui u m h :
  ui !! CONF_URL = Some u →
  ui !! CONF_MODEL = Some (PStr m) →
  urlparse_hostname cbh u = Ret h →
  submit cbh hass ui =
    let uid := py_str_opt h +:+ "_" +:+ m in
    let data := <[UNIQUE_ID := PStr uid]> ui in
    if bool_decide (uid ∈ flows_in_progress hass)
    then (Ret (FlowAbort "already_configured"), hass)
    else if bool_decide (uid ∈ entry_unique_ids hass)
         then (Ret (FlowAbort "already_configured"), hass)
         else (Ret (FlowCreateEntry (entry_title_of h (PStr m)) data),
               {| config_entries :=
                    config_entries hass
                      ++ [ {| entry_unique_id := Some uid;
                              entry_title := entry_title_of h (PStr m);
                              entry_data := data |} ];
                  flows_in_progress := flows_in_progress hass |}).
Proof.
  intros Hu Hm Hh. unfold submit.
  pose proof (step_user_try_known hass ui None u m h Hu Hm Hh) as Hs.
  cbv zeta in *.
  repeat case_bool_decide;
    rewrite (async_step_user_of_try cbh hass ui None _ _ Hs); reflexivity.
Qed.

(** X1. A submission whose unique id is neither that of a flow in progress nor
    that of a record makes a record: its title names the host and the
    model, its data are the submitted values with the unique id added, and
    the host stores it under that unique id, after the records it has. *)
Theorem fresh_submission_makes_record (hass : Hass) (ui : dict)
    (url m : string) (h : option string) :
  ui !! CONF_URL = Some (PStr url) →
  ui !! CONF_MODEL = Some (PStr m) →
  urlparse_hostname cbh (PStr url) = Ret h →
  py_str_opt h +:+ "_" +:+ m ∉ flows_in_progress hass →
  py_str_opt h +:+ "_" +:+ m ∉ entry_unique_ids hass →
  submit cbh hass ui
  = (Ret (FlowCreateEntry
            ("OpenAI Compatible STT (" +:+ py_str_opt h +:+ ", " +:+ m +:+ ")")
            (<[UNIQUE_ID := PStr (py_str_opt h +:+ "_" +:+ m)]> ui)),
     {| config_entries :=
          config_entries hass
            ++ [ {| entry_unique_id := Some (py_str_opt h +:+ "_" +:+ m);
                    entry_title :=
                      "OpenAI Compatible STT (" +:+ py_str_opt h +:+ ", "
                        +:+ m +:+ ")";
                    entry_data :=
                      <[UNIQUE_ID := PStr (py_str_opt h +:+ "_" +:+ m)]> ui |} ];
        flows_in_progress := flows_in_progress hass |}).
Proof.
  intros Hu Hm Hh Hp Hc. rewrite (submit_known hass ui (PStr url) m h Hu Hm Hh).
  cbv zeta. rewrite !bool_decide_eq_false_2 by done. reflexivity.
Qed.

(** After a submission that derives a unique id, one that derives the same
    is aborted. *)
Lemma resubmission_aborts hass ui ui' u u' m h :
  ui !! CONF_URL = Some u →
  ui !! CONF_MODEL = Some (PStr m) →
  urlparse_hostname cbh u = Ret h →
  ui' !! CONF_URL = Some u' →
  ui' !! CONF_MODEL = Some (PStr m) →
  urlparse_hostname cbh u' = Ret h →
  submit cbh (submit cbh hass ui).2 ui'
  = (Ret (FlowAbort "already_configured"), (submit cbh hass ui).2).
Proof.
  intros Hu Hm Hh Hu' Hm' Hh'.
  pose proof (λ hs, submit_known hs ui' u' m h Hu' Hm' Hh') as E2.
  rewrite (submit_known hass ui u m h Hu Hm Hh). cbv zeta in *.
  destruct (decide (py_str_opt h +:+ "_" +:+ m ∈ flows_in_progress hass))
    as [Hin|Hout].
  { rewrite (bool_decide_eq_true_2 _ Hin). cbn [snd].
    by rewrite E2, (bool_decide_eq_true_2 _ Hin). }
  rewrite (bool_decide_eq_false_2 _ Hout).
  destruct (decide (py_str_opt h +:+ "_" +:+ m ∈ entry_unique_ids hass))
    as [Hin|Hnew].
  { rewrite (bool_decide_eq_true_2 _ Hin). cbn [snd].
    by rewrite E2, (bool_decide_eq_false_2 _ Hout),
      (bool_decide_eq_true_2 _ Hin). }
  rewrite (bool_decide_eq_false_2 _ Hnew). cbn [snd].
  rewrite E2. cbn [flows_in_progress].
  rewrite (bool_decide_eq_false_2 _ Hout).
  rewrite bool_decide_eq_true_2; [reflexivity|].
  unfold entry_unique_ids. cbn [config_entries]. rewrite omap_app.
  apply elem_of_app. right. apply list_elem_of_here.
Qed.

(** X2. While another flow with the same unique id is in progress, the
    submission is aborted, under the reason of a duplicate, and no record
    is made. *)
Theorem flow_in_progress_aborts_as_configured (hass : Hass) (ui : dict)
    (url m : string) (h : option string) :
  ui !! CONF_URL = Some (PStr url) →
  ui !! CONF_MODEL = Some (PStr m) →
  urlparse_hostname cbh (PStr url) = Ret h →
  py_str_opt h +:+ "_" +:+ m ∈ flows_in_progress hass →
  submit cbh hass ui = (Ret (FlowAbort "already_configured"), hass).
Proof.
  intros Hu Hm Hh Hp. rewrite (submit_known hass ui (PStr url) m h Hu Hm Hh).
  cbv zeta. by rewrite bool_decide_eq_true_2.
Qed.

(** X3. A submission with a model and no base URL gets the form back with the
    generic message, whatever else it holds, and no record is made. *)
Theorem missing_base_url_is_unknown_error (hass : Hass) (ui : dict) :
  ui !! CONF_URL = None →
  dict_get ui CONF_MODEL ≠ PNone →
  submit cbh hass ui
  = (Ret (FlowForm "user" data_schema {["base" := "unknown_error"]}
            (Some ui)),
     hass).
Proof.
  intros Hu Hm.
  destruct (validate_user_input_cases ui) as [[Hv _]|[_ Hn]]; [|done].
  assert (Hg : generate_unique_id cbh ui = Raise (KeyError CONF_URL)).
  { unfold generate_unique_id, getitem. by rewrite Hu. }
  unfold submit.
  rewrite (async_step_user_of_try cbh hass ui None _ _
             (step_user_try_underivable cbh hass ui None _ Hv Hg)).
  reflexivity.
Qed.

End WizardMore.

(** ** The host name of a URL *)

Lemma string_app_cons x (a b : string) : String x a +:+ b = String x (a +:+ b).
Proof. reflexivity. Qed.

Lemma string_app_nil_l (b : string) : "" +:+ b = b.
Proof. reflexivity. Qed.

Ltac str_norm := rewrite ?string_app_cons, ?string_app_nil_l; cbn.

Lemma string_app_assoc (a b c : string) : (a +:+ b) +:+ c = a +:+ (b +:+ c).
Proof. induction a as [|x a IH]; str_norm; [done|]. f_equal. exact IH. Qed.

Lemma string_app_nil_r (a : string) : a +:+ "" = a.
Proof. induction a as [|x a IH]; str_norm; [done|]. f_equal. exact IH. Qed.

Lemma forallb_app p (a b : string) :
  PyStr.forallb p (a +:+ b) = PyStr.forallb p a && PyStr.forallb p b.
Proof. induction a as [|x a IH]; str_norm; [done|]. rewrite IH. by destruct (p x). Qed.

Lemma forallb_impl (p q : ascii → bool) s :
  (∀ c, p c = true → q c = true) →
  PyStr.forallb p s = true → PyStr.forallb q s = true.
Proof.
  intros Hpq. induction s as [|x s IH]; cbn; [done|].
  intros [Hx Hs]%andb_prop. rewrite (Hpq _ Hx). cbn. auto.
Qed.

Lemma contains_none sep (p : ascii → bool) s :
  (∀ c, p c = true → Ascii.eqb c sep = false) →
  PyStr.forallb p s = true → PyStr.contains sep s = false.
Proof.
  intros Hp. induction s as [|x s IH]; cbn; [done|].
  intros [Hx Hs]%andb_prop. rewrite (Hp _ Hx). auto.
Qed.

Lemma contains_app sep (a b : string) :
  PyStr.contains sep (a +:+ b) = PyStr.contains sep a || PyStr.contains sep b.
Proof.
  induction a as [|x a IH]; str_norm; [done|]. by destruct (Ascii.eqb x sep).
Qed.

Lemma partition_none sep s :
  PyStr.contains sep s = false → PyStr.partition sep s = (s, false, "").
Proof.
  induction s as [|x s IH]; cbn; [done|].
  destruct (Ascii.eqb x sep); [done|]. intros Hs. by rewrite (IH Hs).
Qed.

Lemma partition_app sep (a b : string) :
  PyStr.contains sep a = false →
  PyStr.partition sep (a +:+ String sep b) = (a, true, b).
Proof.
  induction a as [|x a IH]; str_norm.
  - by rewrite Ascii.eqb_refl.
  - destruct (Ascii.eqb x sep); [done|]. intros Hs. by rewrite (IH Hs).
Qed.

(** What [partition] returns is cut out of the string. *)
Lemma partition_found sep s a b :
  PyStr.partition sep s = (a, true, b) → s = a +:+ String sep b.
Proof.
  revert a. induction s as [|x s IH]; intros a; cbn; [done|].
  destruct (Ascii.eqb x sep) eqn:Hx.
  - apply Ascii.eqb_eq in Hx as ->. by intros [= <- <-].
  - destruct (PyStr.partition sep s) as [[a' f] b'].
    intros [= <- -> ->]. str_norm. by rewrite (IH a').
Qed.

Lemma after_last_none sep s :
  PyStr.contains sep s = false → PyStr.after_last sep s = None.
Proof.
  induction s as [|x s IH]; cbn; [done|].
  destruct (Ascii.eqb x sep); [done|]. intros Hs. by rewrite (IH Hs).
Qed.

Lemma take_until_app p (a b : string) :
  PyStr.forallb (λ c, negb (p c)) a = true →
  match b with EmptyString => true | String c _ => p c end = true →
  PyStr.take_until p (a +:+ b) = a.
Proof.
  intros Ha Hb. induction a as [|x a IH]; str_norm; cbn in Ha.
  - destruct b as [|c b]; cbn; [done|]. by rewrite Hb.
  - apply andb_prop in Ha as [Hx Ha]. apply negb_true_iff in Hx.
    rewrite Hx. by rewrite (IH Ha).
Qed.

Lemma remove_app p (a b : string) :
  PyStr.remove p (a +:+ b) = PyStr.remove p a +:+ PyStr.remove p b.
Proof.
  induction a as [|x a IH]; str_norm; [done|]. rewrite IH. by destruct (p x).
Qed.

Lemma remove_none p s :
  PyStr.forallb (λ c, negb (p c)) s = true → PyStr.remove p s = s.
Proof.
  induction s as [|x s IH]; cbn; [done|].
  intros [Hx Hs]%andb_prop. apply negb_true_iff in Hx.
  rewrite Hx. by rewrite (IH Hs).
Qed.

(** [lstrip] drops a prefix. *)
Lemma lstrip_suffix p s : ∃ a, s = a +:+ PyStr.lstrip p s.
Proof.
  induction s as [|x s [a IH]]; [by exists ""|]. cbn.
  destruct (p x).
  - exists (String x a). str_norm. by rewrite <- IH.
  - by exists "".
Qed.

Lemma lstrip_app p (a s : string) :
  PyStr.forallb p a = true → PyStr.lstrip p (a +:+ s) = PyStr.lstrip p s.
Proof.
  induction a as [|x a IH]; str_norm; [done|].
  intros [Hx Ha]%andb_prop. rewrite Hx. auto.
Qed.

Lemma double_slash_suffix (a s : string) :
  double_slash (a +:+ s) = false → double_slash s = false.
Proof.
  induction a as [|x a IH]; str_norm; [done|].
  intros [_ H]%orb_false_elim. auto.
Qed.

(** Facts about single characters, by cases on their eight bits. *)
Ltac by_cases_on_char c :=
  destruct c as [[] [] [] [] [] [] [] []]; vm_compute; congruence.

Lemma alpha_not_space c :
  PyStr.is_ascii_alpha c = true → c0_control_or_space c = false.
Proof. by_cases_on_char c. Qed.

Lemma scheme_char_safe c :
  scheme_char c = true → negb (unsafe_url_byte c) = true.
Proof. by_cases_on_char c. Qed.

Lemma scheme_char_not_colon c : scheme_char c = true → Ascii.eqb c ":" = false.
Proof. by_cases_on_char c. Qed.

Lemma host_char_safe c : host_char c = true → negb (unsafe_url_byte c) = true.
Proof. by_cases_on_char c. Qed.

Lemma host_char_not_delim c : host_char c = true → negb (netloc_delim c) = true.
Proof. by_cases_on_char c. Qed.

Lemma host_char_not_sep c sep :
  sep = "@"%char ∨ sep = ":"%char ∨ sep = "["%char ∨ sep = "]"%char
  ∨ sep = "%"%char →
  host_char c = true → Ascii.eqb c sep = false.
Proof. intros [->|[->|[->|[->| ->]]]]; by_cases_on_char c. Qed.

Lemma digit_safe c : PyStr.is_digit c = true → negb (unsafe_url_byte c) = true.
Proof. by_cases_on_char c. Qed.

Lemma digit_not_delim c : PyStr.is_digit c = true → negb (netloc_delim c) = true.
Proof. by_cases_on_char c. Qed.

Lemma digit_not_sep c sep :
  sep = "@"%char ∨ sep = "["%char ∨ sep = "]"%char →
  PyStr.is_digit c = true → Ascii.eqb c sep = false.
Proof. intros [->|[->| ->]]; by_cases_on_char c. Qed.

Lemma delim_safe c : netloc_delim c = true → unsafe_url_byte c = false.
Proof. by_cases_on_char c. Qed.

Section SimpleUrl.

Variable cbh : string -> option string.
Variables (scheme host rest : string) (port : option string).
Hypothesis Hscheme : url_scheme scheme = true.
Hypothesis Hhost : PyStr.forallb host_char host = true.
Hypothesis Hhost_ne : host ≠ "".
Hypothesis Hport : url_port port = true.
Hypothesis Hrest : url_rest rest = true.

Lemma simple_url_split r :
  simple_url scheme host port r
  = scheme +:+ String ":" ("//" +:+ host_port host port +:+ r).
Proof.
  unfold simple_url, host_port. f_equal. change ("://" +:+ ?x) with
    (String ":" ("//" +:+ x)). f_equal. f_equal.
  by rewrite string_app_assoc.
Qed.

Lemma scheme_facts :
  ∃ c s, scheme = String c s ∧ PyStr.is_ascii_alpha c = true
         ∧ PyStr.forallb scheme_char scheme = true.
Proof.
  unfold url_scheme in Hscheme. apply andb_prop in Hscheme as [Ha Hs].
  destruct scheme as [|c s]; [done|]. eauto.
Qed.

Lemma host_port_forallb p :
  (∀ c, host_char c = true → p c = true) →
  (∀ c, PyStr.is_digit c = true → p c = true) →
  p ":"%char = true →
  PyStr.forallb p (host_port host port) = true.
Proof.
  intros Hh Hd Hc. unfold host_port. rewrite forallb_app.
  rewrite (forallb_impl _ _ _ Hh Hhost). cbn.
  destruct port as [p'|]; [|done].
  change (":" +:+ p') with (String ":" p'). cbn in *. rewrite Hc. cbn.
  by apply (forallb_impl _ _ _ Hd).
Qed.

Lemma simple_url_lstrip :
  PyStr.lstrip c0_control_or_space (simple_url scheme host port rest)
  = simple_url scheme host port rest.
Proof.
  destruct scheme_facts as (c & s & -> & Ha & _).
  unfold simple_url. rewrite string_app_cons. cbn.
  by rewrite (alpha_not_space _ Ha).
Qed.

Lemma url_rest_remove :
  url_rest (PyStr.remove unsafe_url_byte rest) = true.
Proof.
  destruct rest as [|c r]; [done|]. cbn in *.
  rewrite (delim_safe _ Hrest). exact Hrest.
Qed.

Lemma simple_url_remove :
  PyStr.remove unsafe_url_byte (simple_url scheme host port rest)
  = simple_url scheme host port (PyStr.remove unsafe_url_byte rest).
Proof.
  destruct scheme_facts as (_ & _ & _ & _ & Hs).
  assert (Hsplit : ∀ r, simple_url scheme host port r
                        = (scheme +:+ "://" +:+ host_port host port) +:+ r).
  { intros r. unfold simple_url, host_port.
    by rewrite !string_app_assoc. }
  rewrite !Hsplit, remove_app. f_equal. apply remove_none.
  rewrite !forallb_app.
  rewrite (forallb_impl scheme_char _ _ scheme_char_safe Hs).
  rewrite host_port_forallb;
    [reflexivity|apply host_char_safe|apply digit_safe|reflexivity].
Qed.

Lemma simple_url_drop_scheme r :
  drop_scheme (simple_url scheme host port r)
  = "//" +:+ host_port host port +:+ r.
Proof.
  destruct scheme_facts as (c & s & Hsc & Ha & Hs).
  rewrite simple_url_split. unfold drop_scheme.
  rewrite partition_app; cycle 1.
  { by apply (contains_none _ scheme_char); [apply scheme_char_not_colon|]. }
  rewrite Hs. rewrite Hsc. cbn. by rewrite Ha.
Qed.

Lemma simple_url_netloc r :
  url_rest r = true →
  netloc_of ("//" +:+ host_port host port +:+ r) = host_port host port.
Proof.
  intros Hr. change ("//" +:+ ?x) with (String "/" (String "/" x)). cbn.
  apply take_until_app; [|exact Hr].
  apply host_port_forallb;
    [apply host_char_not_delim|apply digit_not_delim|done].
Qed.

Lemma host_port_no_sep sep :
  sep = "@"%char ∨ sep = "["%char ∨ sep = "]"%char →
  PyStr.contains sep (host_port host port) = false.
Proof.
  intros Hsep. apply (contains_none _ (λ c, negb (Ascii.eqb c sep))).
  { intros c. by intros ->%negb_true_iff. }
  apply host_port_forallb.
  - intros c Hc. rewrite (host_char_not_sep c sep); [done| |done].
    destruct Hsep as [->|[->| ->]]; auto.
  - intros c Hc. by rewrite (digit_not_sep c sep).
  - by destruct Hsep as [->|[->| ->]].
Qed.

Lemma host_port_hostname :
  hostname_of_netloc (host_port host port) = Some (PyStr.lower host).
Proof.
  unfold hostname_of_netloc, hostinfo_host, PyStr.rpartition_tail.
  rewrite after_last_none by (apply host_port_no_sep; auto). cbn [default].
  rewrite partition_none by (apply host_port_no_sep; auto).
  assert (Hc : PyStr.contains ":" host = false).
  { apply (contains_none _ host_char); [|done].
    intros c. apply host_char_not_sep. auto. }
  assert (Hp : (PyStr.partition ":" (host_port host port)).1.1 = host).
  { unfold host_port. destruct port as [p|].
    - change (":" +:+ p) with (String ":" p). by rewrite partition_app.
    - by rewrite string_app_nil_r, partition_none. }
  destruct (PyStr.partition ":" (host_port host port)) as [[h0 f0] p0].
  cbn in Hp. subst h0.
  destruct host as [|c h] eqn:Hh; [done|]. rewrite <- Hh in *. 
  replace (PyStr.is_empty host) with false by (by rewrite Hh).
  rewrite partition_none; cycle 1.
  { apply (contains_none _ host_char); [|done].
    intros c'. apply host_char_not_sep. auto. }
  by rewrite !string_app_nil_r.
Qed.

(** The host name of [scheme://host:port/...] is [host] in lower case. *)
Lemma simple_url_hostname :
  urlparse_hostname cbh (PStr (simple_url scheme host port rest))
  = Ret (Some (PyStr.lower host)).
Proof.
  unfold urlparse_hostname, urlsplit_netloc. cbv zeta.
  rewrite simple_url_lstrip, simple_url_remove, simple_url_drop_scheme.
  rewrite (simple_url_netloc _ url_rest_remove).
  rewrite !host_port_no_sep by auto. cbn.
  by rewrite host_port_hostname.
Qed.

End SimpleUrl.

Section HostlessUrl.

Variable cbh : string -> option string.

Lemma remove_suffix p (a s : string) :
  ∃ b, PyStr.remove p (a +:+ s) = b +:+ PyStr.remove p s.
Proof. exists (PyStr.remove p a). apply remove_app. Qed.

Lemma drop_scheme_suffix s : ∃ a, s = a +:+ drop_scheme s.
Proof.
  unfold drop_scheme.
  destruct (PyStr.partition ":" s) as [[before found] after] eqn:Hp.
  destruct found; cbn; [|by exists ""].
  apply partition_found in Hp.
  destruct (_ && _); [|by exists ""].
  exists (before +:+ ":"). rewrite string_app_assoc. exact Hp.
Qed.

Lemma netloc_of_cases s :
  (∃ r, s = String "/" (String "/" r)) ∨ netloc_of s = "".
Proof.
  destruct s as [|c s]; [by right|].
  destruct c as [[] [] [] [] [] [] [] []]; try (by right).
  destruct s as [|d s]; [by right|].
  destruct d as [[] [] [] [] [] [] [] []]; try (by right).
  left. by eexists.
Qed.

Lemma netloc_of_double_slash s :
  double_slash s = false → netloc_of s = "".
Proof.
  destruct (netloc_of_cases s) as [[r ->]|H]; [|done]. by cbn.
Qed.

(** A URL with no two slashes in a row, once tabs and line breaks are
    taken out, has no host name. *)
Lemma hostless_url_hostname url :
  double_slash (PyStr.remove unsafe_url_byte url) = false →
  urlparse_hostname cbh (PStr url) = Ret None.
Proof.
  intros Hds. unfold urlparse_hostname, urlsplit_netloc. cbv zeta.
  destruct (lstrip_suffix c0_control_or_space url) as [a Ha].
  rewrite Ha, remove_app in Hds. apply double_slash_suffix in Hds.
  destruct (drop_scheme_suffix
              (PyStr.remove unsafe_url_byte
                 (PyStr.lstrip c0_control_or_space url))) as [b Hb].
  rewrite Hb in Hds. apply double_slash_suffix in Hds.
  by rewrite (netloc_of_double_slash _ Hds).
Qed.

End HostlessUrl.

Section UniqueIdMore.

Variable cbh : string -> option string.

(** X4. For a base URL of code points below 256, as the strings here are,
    of the form [scheme://host:port/...]: the unique id of the submission
    is [host] in lower case, an underscore and the model; the scheme, the
    port, the path and the case of the host do not enter it. *)
Theorem unique_id_ignores_scheme_port_path (ui : dict)
    (scheme host rest m : string) (port : option string) :
  url_scheme scheme = true →
  PyStr.forallb host_char host = true →
  host ≠ "" →
  url_port port = true →
  url_rest rest = true →
  ui !! CONF_URL = Some (PStr (simple_url scheme host port rest)) →
  ui !! CONF_MODEL = Some (PStr m) →
  generate_unique_id cbh ui = Ret (PyStr.lower host +:+ "_" +:+ m).
Proof.
  intros Hs Hh Hne Hp Hr Hu Hm.
  apply (derivable_submission cbh ui _ m (Some (PyStr.lower host)) Hu Hm).
  by apply simple_url_hostname.
Qed.

(** X5. For base URLs of code points below 256 of the form
    [scheme://host:port/...]: once a submission for a host and a model has
    been handled, one for the same host, up to case, and the same model is
    aborted, whatever its scheme, port and path. *)
Theorem same_host_other_port_is_aborted (hass : Hass) (ui ui' : dict)
    (scheme scheme' host host' rest rest' m : string)
    (port port' : option string) :
  url_scheme scheme = true → url_scheme scheme' = true →
  PyStr.forallb host_char host = true → host ≠ "" →
  PyStr.forallb host_char host' = true → host' ≠ "" →
  PyStr.lower host' = PyStr.lower host →
  url_port port = true → url_port port' = true →
  url_rest rest = true → url_rest rest' = true →
  ui !! CONF_URL = Some (PStr (simple_url scheme host port rest)) →
  ui !! CONF_MODEL = Some (PStr m) →
  ui' !! CONF_URL = Some (PStr (simple_url scheme' host' port' rest')) →
  ui' !! CONF_MODEL = Some (PStr m) →
  submit cbh (submit cbh hass ui).2 ui'
  = (Ret (FlowAbort "already_configured"), (submit cbh hass ui).2).
Proof.
  intros Hs Hs' Hh Hne Hh' Hne' Hlow Hp Hp' Hr Hr' Hu Hm Hu' Hm'.
  pose proof (simple_url_hostname cbh scheme host rest port Hs Hh Hne Hp Hr)
    as H1.
  pose proof (simple_url_hostname cbh scheme' host' rest' port' Hs' Hh' Hne'
                Hp' Hr') as H2.
  rewrite Hlow in H2.
  exact (resubmission_aborts cbh hass ui ui' _ _ m _ Hu Hm H1 Hu' Hm' H2).
Qed.

(** X6. A base URL with no two slashes in a row has no host name: the unique id
    is ["None_"] and the model, whatever the URL. *)
Theorem hostless_url_unique_id (ui : dict) (url m : string) :
  double_slash (PyStr.remove unsafe_url_byte url) = false →
  ui !! CONF_URL = Some (PStr url) →
  ui !! CONF_MODEL = Some (PStr m) →
  generate_unique_id cbh ui = Ret ("None_" +:+ m).
Proof.
  intros Hds Hu Hm.
  apply (derivable_submission cbh ui _ m None Hu Hm).
  by apply hostless_url_hostname.
Qed.

(** X7. Blanks and control characters before the URL do not change the host
    name, hence not the unique id. *)
Theorem leading_blanks_are_ignored (ui ui' : dict) (blanks url : string) :
  PyStr.forallb c0_control_or_space blanks = true →
  ui !! CONF_URL = Some (PStr url) →
  ui' !! CONF_URL = Some (PStr (blanks +:+ url)) →
  ui !! CONF_MODEL = ui' !! CONF_MODEL →
  generate_unique_id cbh ui' = generate_unique_id cbh ui.
Proof.
  intros Hb Hu Hu' Hm. unfold generate_unique_id, getitem.
  rewrite Hu, Hu', Hm.
  replace (urlparse_hostname cbh (PStr (blanks +:+ url)))
    with (urlparse_hostname cbh (PStr url)); [reflexivity|].
  unfold urlparse_hostname, urlsplit_netloc. cbv zeta.
  by rewrite lstrip_app.
Qed.

End UniqueIdMore.

(** ** More on the processing of a stream *)

Lemma bind_raise_fwd {S A B} (m : M S A) (k : A → M S B) s e s1 :
  m s = (Raise e, s1) → bind m k s = (Raise e, s1).
Proof. unfold bind. by intros ->. Qed.

Lemma try_finally_raise_fwd {S A} (body : M S A) (cleanup : M S unit)
    s r s1 e s2 :
  body s = (r, s1) → cleanup s1 = (Raise e, s2) →
  try_finally body cleanup s = (Raise e, s2).
Proof. unfold try_finally. by intros -> ->. Qed.

Lemma try_finally_run {S A} (body : M S A) (cleanup : M S unit)
    s r s1 s2 :
  body s = (r, s1) → cleanup s1 = (Ret tt, s2) →
  try_finally body cleanup s = (r, s2).
Proof. unfold try_finally. by intros -> ->. Qed.

(** The writer refuses a channel count or a sample rate below one, and
    closing it then fails as well; the file is not written to. *)
Lemma write_wav_refused path md data m t wv :
  channel md < 1 ∨ sample_rate md < 1 →
  ∃ e w',
    write_wav path md data
      {| fs := m; tmp_pos := 0; wav := wv; trace := t |} = (Raise e, w')
    ∧ fs w' = m ∧ trace w' = t.
Proof.
  intros Hbad. unfold write_wav.
  destruct (Z.ltb_spec (channel md) 1) as [Hc|Hc].
  - (* no channel: the first setter raises *)
    apply Z.ltb_lt in Hc.
    eexists _, _. split.
    + fstep. eapply try_finally_raise_fwd.
      * eapply bind_raise_fwd. unfold wave_setnchannels. fprim.
        change (0 =? 0) with true. cbn. rewrite Hc. reflexivity.
      * unfold wave_close. eapply try_finally_run.
        -- fstep. cbn iota. eapply bind_raise_fwd.
           unfold wave_ensure_header_written. fstep.
           change (0 =? 0) with true. reflexivity.
        -- fprim. reflexivity.
    + split; reflexivity.
  - (* no sample rate: the third setter raises *)
    assert (Hr : (sample_rate md <=? 0) = true) by (apply Z.leb_le; lia).
    assert (Hc1 : (channel md <? 1) = false) by (apply Z.ltb_ge; lia).
    assert (Hc0 : (channel md =? 0) = false) by (apply Z.eqb_neq; lia).
    eexists _, _. split.
    + fstep. eapply try_finally_raise_fwd.
      * eapply bind_fwd.
        { unfold wave_setnchannels. fprim. change (0 =? 0) with true. cbn.
          rewrite Hc1. cbn. reflexivity. }
        eapply bind_fwd.
        { unfold wave_setsampwidth. fprim. change (0 =? 0) with true.
          change (2 <? 1) with false. change (4 <? 2) with false. cbn.
          reflexivity. }
        eapply bind_raise_fwd.
        unfold wave_setframerate. fprim. change (0 =? 0) with true. cbn.
        rewrite Hr. reflexivity.
      * unfold wave_close. eapply try_finally_run.
        -- fstep. cbn iota. eapply bind_raise_fwd.
           unfold wave_ensure_header_written. fstep. rewrite Hc0.
           change (2 =? 0) with false. change (0 =? 0) with true.
           reflexivity.
        -- fprim. reflexivity.
    + split; reflexivity.
Qed.

(** X8. An exception the stream raises while it is pulled leaves the call as
    it is: the caller gets it, no file is touched and the remote endpoint
    is not called. *)
Theorem stream_exception_reaches_caller (env : Env) (self : Entity)
    (md : SpeechMetadata) (stream : Stream) (w : World) (e : exn) :
  stream_failure stream = Some e →
  ∃ w',
    async_process_audio_stream env self md stream w = (Raise e, w')
    ∧ fs w' = fs w
    ∧ trace w' = (trace w ++ pulls (length (chunks stream)))%list.
Proof.
  intros He. rewrite async_process_audio_stream_run, He.
  eexists. split; [reflexivity|]. split; reflexivity.
Qed.

(** X9. For a non-empty buffer the remote endpoint is called when, and only
    when, the file could be staged; it is then called once, after the file
    is made, with the model of the entity and the language of the
    request. *)
Theorem remote_called_once_iff_staged (env : Env) (self : Entity)
    (md : SpeechMetadata) (data : bytes) (w : World) :
  data ≠ [] →
  (staging_succeeds env md data →
   ∃ p, env_mkstemp env ".wav" = Ret p
        ∧ trace (process_buffer env self md data w).2
          = (trace w
             ++ [EvTempFile p;
                 EvTranscribe (ent_model self)
                   (wav_image (channel md) (sample_rate md) data)
                   (language md)])%list)
  ∧ (¬ staging_succeeds env md data →
     ∃ evs, trace (process_buffer env self md data w).2
            = (trace w ++ evs)%list
            ∧ no_remote_call evs).
Proof.
  intros Hne.
  pose proof (process_buffer_cases env self md data w Hne) as Hc.
  unfold staging_succeeds. split.
  - intros [[p Hp] Hfit]. rewrite Hp in Hc. exists p. split; [done|].
    by destruct Hc as [(_ & _ & _ & Ht)|(Hn & _)].
  - intros Hn. destruct (env_mkstemp env ".wav") as [p|e].
    + destruct Hc as [(Hfit & _)|(_ & _ & _ & Ht)]; [destruct Hn; eauto|].
      eexists. split; [exact Ht|]. intros m f l Hin.
      by apply list_elem_of_singleton in Hin.
    + rewrite Hc. exists []. cbn. rewrite app_nil_r. split; [done|].
      intros m f l. apply not_elem_of_nil.
Qed.

(** X11. The writer returns when, and only when, the fields of the header fit
    their widths: at least one channel and twice the channels below 2^16, a
    sample rate from 1 to below 2^32, the byte rate below 2^32, and the
    buffer with 36 more bytes below 2^32. It then leaves the header and the
    buffer in the file; otherwise it raises. *)
Theorem wav_writer_bounds (p : string) (md : SpeechMetadata) (data : bytes)
    (w : World) :
  (wav_fields_fit (channel md) (sample_rate md) data →
   ∃ w', write_wav p md data (staged p w) = (Ret tt, w')
         ∧ fs w' = <[p := wav_image (channel md) (sample_rate md) data]> (fs w))
  ∧ (¬ wav_fields_fit (channel md) (sample_rate md) data →
     ∃ e w', write_wav p md data (staged p w) = (Raise e, w')).
Proof.
  split.
  - intros Hfit.
    destruct (write_wav_fits p md data (fs w) (trace w ++ [EvTempFile p])
                (wav w) Hfit) as [w' Hw'].
    exists w'. split; [exact Hw'|].
    by apply write_wav_returns in Hw' as (Hfs & _).
  - intros Hn. destruct (write_wav p md data (staged p w)) as [[[]|e] w'] eqn:Hw.
    + apply write_wav_returns in Hw as (_ & _ & Hfit). done.
    + eauto.
Qed.

(** X12. With a channel count or a sample rate below one, a non-empty buffer
    gives the empty text with [ERROR]; the remote endpoint is not called,
    and the temporary file stays behind, empty. *)
Theorem refused_parameters_leave_empty_file (env : Env) (self : Entity)
    (md : SpeechMetadata) (data : bytes) (w : World) (p : string) :
  channel md < 1 ∨ sample_rate md < 1 →
  data ≠ [] →
  env_mkstemp env ".wav" = Ret p →
  (process_buffer env self md data w).1 = Ret {| text := ""; result := ERROR |}
  ∧ fs (process_buffer env self md data w).2 = <[p := []]> (fs w)
  ∧ trace (process_buffer env self md data w).2
    = (trace w ++ [EvTempFile p])%list.
Proof.
  intros Hbad Hne Hp. rewrite process_buffer_run, Hp by done.
  destruct (write_wav_refused p md data (<[p := []]> (fs w))
              (trace w ++ [EvTempFile p]) (wav w) Hbad)
    as (e & w' & Hw & Hfs & Ht).
  unfold staged. rewrite Hw. cbn. by rewrite Hfs, Ht.
Qed.

(** X13. For audio as the entity advertises it, a non-empty buffer of less
    than 2^32 - 36 bytes is always staged, once the temporary file is made:
    the remote endpoint is called, and what it returns alone decides the
    result, which is the text of the answer object with [SUCCESS], be that
    text a string or not, and the empty text with [ERROR] when the call
    raises or returns no answer object. *)
Theorem advertised_audio_reaches_endpoint (env : Env) (self : Entity)
    (md : SpeechMetadata) (data : bytes) (w : World) (p : string) :
  channel md ∈ supported_channels self →
  sample_rate md ∈ supported_sample_rates self →
  data ≠ [] →
  36 + Z.of_nat (length data) < 4294967296 →
  env_mkstemp env ".wav" = Ret p →
  (process_buffer env self md data w).1
  = Ret match answer env self md data with
        | Ret t =>
            match transcription_text t with
            | Ret v => {| text := v; result := SUCCESS |}
            | Raise _ => {| text := ""; result := ERROR |}
            end
        | Raise _ => {| text := ""; result := ERROR |}
        end
  ∧ trace (process_buffer env self md data w).2
    = (trace w
       ++ [EvTempFile p;
           EvTranscribe (ent_model self) (wav_image 1 16000 data)
             (language md)])%list.
Proof.
  intros Hc Hr Hne Hlen Hp.
  apply list_elem_of_singleton in Hc, Hr.
  assert (Hfit : wav_fields_fit (channel md) (sample_rate md) data).
  { unfold wav_fields_fit. rewrite Hc, Hr. lia. }
  pose proof (process_buffer_cases env self md data w Hne) as Hcases.
  rewrite Hp in Hcases.
  destruct Hcases as [(_ & Hres & _ & Ht)|(Hn & _)]; [|done].
  rewrite Hc, Hr in Ht. split; [|exact Ht]. rewrite Hres.
  reflexivity.
Qed.

(** X14. When the file was staged, what stays on disk after the call is the
    whole WAV file, buffer included, whatever the remote endpoint
    answered; no other file has changed. *)
Theorem leftover_file_holds_the_audio (env : Env) (self : Entity)
    (md : SpeechMetadata) (data : bytes) (w : World) (p : string) :
  data ≠ [] →
  env_mkstemp env ".wav" = Ret p →
  wav_fields_fit (channel md) (sample_rate md) data →
  fs (process_buffer env self md data w).2
  = <[p := wav_image (channel md) (sample_rate md) data]> (fs w).
Proof.
  intros Hne Hp Hfit.
  pose proof (process_buffer_cases env self md data w Hne) as Hc.
  rewrite Hp in Hc. by destruct Hc as [(_ & _ & Hfs & _)|(Hn & _)].
Qed.

Section SetupMore.

Variable cbh : string -> option string.
Variable generate_entity_id : string -> pyval -> string.
Variable AsyncOpenAI : pyval -> pyval -> res Client.

(** What the constructor makes of a record with a model. *)
Lemma entity_init_run config client model m :
  config !! CONF_MODEL = Some m →
  entity_init generate_entity_id config client model
  = Ret {| ent_client := client; ent_config := config; ent_model := model;
           attr_unique_id :=
             match config !! UNIQUE_ID with
             | Some (PStr uid) => PStr uid
             | _ => PStr (py_str m)
             end;
           entity_id :=
             generate_entity_id "stt.openai_compatible_stt_{}" m |}.
Proof.
  intros Hm. unfold entity_init, dict_get, getitem. rewrite Hm.
  by destruct (config !! UNIQUE_ID) as [[|uid]|].
Qed.

(** X15. Setting up a record with a base URL and a model, for which the
    constructor of the client returns, hands the host one entity. The
    constructor is called with the API key of the record, or with [None]
    when the record has none, and with its base URL; the entity holds the
    client it returned, and its model is the one of the record. *)
Theorem setup_entry_makes_one_entity (data : dict) (u m : pyval)
    (client : Client) :
  data !! CONF_URL = Some u →
  AsyncOpenAI (default PNone (data !! CONF_API_KEY)) u = Ret client →
  data !! CONF_MODEL = Some m →
  ∃ e,
    async_setup_entry generate_entity_id AsyncOpenAI data = Ret [e]
    ∧ ent_client e = client
    ∧ ent_model e = m
    ∧ ent_config e = data
    ∧ entity_id e = generate_entity_id "stt.openai_compatible_stt_{}" m.
Proof.
  intros Hu Hc Hm. unfold async_setup_entry, getitem. rewrite Hu.
  change (match data !! CONF_API_KEY with Some v => v | None => PNone end)
    with (default PNone (data !! CONF_API_KEY)).
  rewrite Hc, Hm, (entity_init_run _ _ _ m Hm).
  eexists. split; [reflexivity|]. done.
Qed.

(** X16. Setting up a record succeeds when, and only when, it has a base
    URL, the constructor of the client returns, and it has a model. It
    raises a [KeyError] for a missing base URL; else what the constructor
    raises, before the model is looked at; else a [KeyError] for a missing
    model. *)
Theorem setup_entry_needs_url_client_and_model (data : dict) :
  ((∃ es, async_setup_entry generate_entity_id AsyncOpenAI data = Ret es)
   ↔ ∃ u c, data !! CONF_URL = Some u
            ∧ AsyncOpenAI (default PNone (data !! CONF_API_KEY)) u = Ret c
            ∧ is_Some (data !! CONF_MODEL))
  ∧ (data !! CONF_URL = None →
     async_setup_entry generate_entity_id AsyncOpenAI data
     = Raise (KeyError "base_url"))
  ∧ (∀ u e, data !! CONF_URL = Some u →
            AsyncOpenAI (default PNone (data !! CONF_API_KEY)) u = Raise e →
            async_setup_entry generate_entity_id AsyncOpenAI data = Raise e)
  ∧ (∀ u c, data !! CONF_URL = Some u →
            AsyncOpenAI (default PNone (data !! CONF_API_KEY)) u = Ret c →
            data !! CONF_MODEL = None →
            async_setup_entry generate_entity_id AsyncOpenAI data
            = Raise (KeyError "model")).
Proof.
  unfold async_setup_entry, getitem.
  change (match data !! CONF_API_KEY with Some v => v | None => PNone end)
    with (default PNone (data !! CONF_API_KEY)).
  destruct (data !! CONF_URL) as [u|] eqn:Hu; cycle 1.
  { split; [|split; [done|split; intros; done]].
    split; [by intros [es [=]]|]. by intros (? & ? & [=] & _). }
  destruct (AsyncOpenAI (default PNone (data !! CONF_API_KEY)) u)
    as [c|e] eqn:Hc; cycle 1.
  { split; [|split; [done|split]].
    - split; [by intros [es [=]]|].
      intros (u' & c' & [= <-] & Hc' & _). congruence.
    - intros u' e' [= <-] He. congruence.
    - intros u' c' [= <-] Hc'. congruence. }
  destruct (data !! CONF_MODEL) as [m|] eqn:Hm.
  - rewrite (entity_init_run _ _ _ m Hm).
    split; [|split; [done|split]].
    + split; [|eauto]. intros _. exists u, c. eauto.
    + intros u' e' [= <-] He. rewrite Hc in He. done.
    + intros u' c' _ _ [=].
  - split; [|split; [done|split]].
    + split; [by intros [es [=]]|]. by intros (? & ? & _ & _ & [? [=]]).
    + intros u' e' [= <-] He. rewrite Hc in He. done.
    + done.
Qed.

(** X17. An entity that was constructed has a unique id that is not [None], and
    its [name] and its [device_info] do not raise: the name and the model
    of the device are the model of the record, and the device is
    identified by the domain and the unique id. *)
Theorem constructed_entity_properties (DOMAIN : string) (config : dict)
    (client : Client) (model : pyval) (e : Entity) :
  entity_init generate_entity_id config client model = Ret e →
  attr_unique_id e ≠ PNone
  ∧ ∃ m, config !! CONF_MODEL = Some m
         ∧ entity_name e = Ret (py_str m)
         ∧ device_info DOMAIN e
           = Ret {| identifiers := [(DOMAIN, attr_unique_id e)];
                    device_model := py_str m;
                    manufacturer := "OpenAI Compatible" |}.
Proof.
  intros He.
  destruct (config !! CONF_MODEL) as [m|] eqn:Hm; cycle 1.
  { revert He. unfold entity_init, dict_get, getitem. rewrite Hm.
    by destruct (is_None _). }
  rewrite (entity_init_run _ _ _ m Hm) in He. injection He as <-.
  split.
  - cbn. by destruct (config !! UNIQUE_ID) as [[|uid]|].
  - exists m. split; [done|].
    unfold entity_name, device_info, getitem. cbn. by rewrite Hm.
Qed.

(** X18. The record the wizard makes is one the entity can be set up from,
    when the constructor of the client returns for the submitted API key
    and base URL: the unique id of the entity is the one the record is
    stored under, its client is the one the constructor returned, and its
    model is the submitted model. *)
Theorem wizard_record_sets_up_entity (hass hass' : Hass) (ui d : dict)
    (url m title : string) (h : option string) (client : Client) :
  ui !! CONF_URL = Some (PStr url) →
  ui !! CONF_MODEL = Some (PStr m) →
  urlparse_hostname cbh (PStr url) = Ret h →
  AsyncOpenAI (default PNone (ui !! CONF_API_KEY)) (PStr url) = Ret client →
  submit cbh hass ui = (Ret (FlowCreateEntry title d), hass') →
  last (config_entries hass')
  = Some {| entry_unique_id := Some (py_str_opt h +:+ "_" +:+ m);
            entry_title := title; entry_data := d |}
  ∧ ∃ e,
      async_setup_entry generate_entity_id AsyncOpenAI d = Ret [e]
      ∧ attr_unique_id e = PStr (py_str_opt h +:+ "_" +:+ m)
      ∧ ent_client e = client
      ∧ ent_model e = PStr m.
Proof.
  intros Hu Hm Hh Hc Hs.
  rewrite (submit_known cbh hass ui _ m h Hu Hm Hh) in Hs. cbv zeta in Hs.
  repeat case_bool_decide; try done. injection Hs as <- <- <-.
  split; [cbn [config_entries]; by rewrite last_snoc|].
  unfold async_setup_entry, getitem.
  rewrite !lookup_insert_ne, Hu, Hm by done.
  change (match ui !! CONF_API_KEY with Some v => v | None => PNone end)
    with (default PNone (ui !! CONF_API_KEY)).
  rewrite Hc.
  erewrite entity_init_run by (by rewrite lookup_insert_ne).
  eexists. split; [reflexivity|]. cbn. by rewrite lookup_insert_eq.
Qed.

End SetupMore.

(** ** The statements on examples *)

Lemma fresh_submission_makes_record_witness :
  submit accept_bracketed_host empty_hass openai_submission
  = (Ret (FlowCreateEntry
            ("OpenAI Compatible STT (" +:+ py_str_opt (Some "api.openai.com")
               +:+ ", " +:+ "whisper-1" +:+ ")")
            (<[UNIQUE_ID := PStr (py_str_opt (Some "api.openai.com") +:+ "_"
                                    +:+ "whisper-1")]> openai_submission)),
     {| config_entries :=
          config_entries empty_hass
            ++ [ {| entry_unique_id :=
                      Some (py_str_opt (Some "api.openai.com") +:+ "_"
                              +:+ "whisper-1");
                    entry_title :=
                      "OpenAI Compatible STT ("
                        +:+ py_str_opt (Some "api.openai.com") +:+ ", "
                        +:+ "whisper-1" +:+ ")";
                    entry_data :=
                      <[UNIQUE_ID := PStr (py_str_opt (Some "api.openai.com")
                                             +:+ "_" +:+ "whisper-1")]>
                        openai_submission |} ];
        flows_in_progress := flows_in_progress empty_hass |}).
Proof.
  apply (fresh_submission_makes_record accept_bracketed_host empty_hass
           openai_submission "https://api.openai.com/v1/" "whisper-1"
           (Some "api.openai.com")).
  - reflexivity.
  - reflexivity.
  - vm_compute. reflexivity.
  - apply not_elem_of_nil.
  - apply not_elem_of_nil.
Defined.

Lemma flow_in_progress_aborts_as_configured_witness :
  submit accept_bracketed_host busy_hass openai_submission
  = (Ret (FlowAbort "already_configured"), busy_hass).
Proof.
  apply (flow_in_progress_aborts_as_configured accept_bracketed_host
           busy_hass openai_submission "https://api.openai.com/v1/"
           "whisper-1" (Some "api.openai.com")).
  - reflexivity.
  - reflexivity.
  - vm_compute. reflexivity.
  - apply list_elem_of_here.
Defined.

Lemma missing_base_url_is_unknown_error_witness :
  submit accept_bracketed_host empty_hass no_url_submission
  = (Ret (FlowForm "user" data_schema {["base" := "unknown_error"]}
            (Some no_url_submission)),
     empty_hass).
Proof.
  apply (missing_base_url_is_unknown_error accept_bracketed_host empty_hass
           no_url_submission).
  - reflexivity.
  - discriminate.
Defined.

Lemma unique_id_ignores_scheme_port_path_witness :
  generate_unique_id accept_bracketed_host other_port_submission
  = Ret (PyStr.lower "API.OpenAI.com" +:+ "_" +:+ "whisper-1").
Proof.
  apply (unique_id_ignores_scheme_port_path accept_bracketed_host
           other_port_submission "HTTP" "API.OpenAI.com" "/v2" "whisper-1"
           (Some "8080")).
  - reflexivity.
  - reflexivity.
  - discriminate.
  - reflexivity.
  - reflexivity.
  - reflexivity.
  - reflexivity.
Defined.

Lemma same_host_other_port_is_aborted_witness :
  submit accept_bracketed_host
    (submit accept_bracketed_host empty_hass openai_submission).2
    other_port_submission
  = (Ret (FlowAbort "already_configured"),
     (submit accept_bracketed_host empty_hass openai_submission).2).
Proof.
  apply (same_host_other_port_is_aborted accept_bracketed_host empty_hass
           openai_submission other_port_submission
           "https" "HTTP" "api.openai.com" "API.OpenAI.com" "/v1/" "/v2"
           "whisper-1" None (Some "8080"));
    try reflexivity; discriminate.
Defined.

Lemma hostless_url_unique_id_witness :
  generate_unique_id accept_bracketed_host hostless_submission
  = Ret ("None_" +:+ "whisper-1").
Proof.
  apply (hostless_url_unique_id accept_bracketed_host hostless_submission
           "localhost:8080/v1" "whisper-1"); reflexivity.
Defined.

Lemma leading_blanks_are_ignored_witness :
  generate_unique_id accept_bracketed_host blank_led_submission
  = generate_unique_id accept_bracketed_host openai_submission.
Proof.
  apply (leading_blanks_are_ignored accept_bracketed_host openai_submission
           blank_led_submission "  " "https://api.openai.com/v1/");
    reflexivity.
Defined.

Lemma stream_exception_reaches_caller_witness :
  ∃ w',
    async_process_audio_stream example_env example_entity example_metadata
      broken_stream (initial_world ∅)
    = (Raise (OSError "connection lost"), w')
    ∧ fs w' = fs (initial_world ∅)
    ∧ trace w'
      = (trace (initial_world ∅) ++ pulls (length (chunks broken_stream)))%list.
Proof.
  apply (stream_exception_reaches_caller example_env example_entity
           example_metadata broken_stream (initial_world ∅)
           (OSError "connection lost")).
  reflexivity.
Defined.

Lemma remote_called_once_iff_staged_witness :
  (staging_succeeds example_env example_metadata example_data →
   ∃ p, env_mkstemp example_env ".wav" = Ret p
        ∧ trace (process_buffer example_env example_entity example_metadata
                   example_data (initial_world ∅)).2
          = (trace (initial_world ∅)
             ++ [EvTempFile p;
                 EvTranscribe (ent_model example_entity)
                   (wav_image (channel example_metadata)
                      (sample_rate example_metadata) example_data)
                   (language example_metadata)])%list)
  ∧ (¬ staging_succeeds example_env example_metadata example_data →
     ∃ evs, trace (process_buffer example_env example_entity
                     example_metadata example_data (initial_world ∅)).2
            = (trace (initial_world ∅) ++ evs)%list
            ∧ no_remote_call evs).
Proof.
  apply (remote_called_once_iff_staged example_env example_entity
           example_metadata example_data (initial_world ∅)).
  discriminate.
Defined.

Lemma refused_parameters_leave_empty_file_witness :
  (process_buffer example_env example_entity no_channel_metadata
     example_data (initial_world ∅)).1
  = Ret {| text := ""; result := ERROR |}
  ∧ fs (process_buffer example_env example_entity no_channel_metadata
          example_data (initial_world ∅)).2
    = <["/tmp/tmpk3v9.wav" := []]> (fs (initial_world ∅))
  ∧ trace (process_buffer example_env example_entity no_channel_metadata
             example_data (initial_world ∅)).2
    = (trace (initial_world ∅) ++ [EvTempFile "/tmp/tmpk3v9.wav"])%list.
Proof.
  apply (refused_parameters_leave_empty_file example_env example_entity
           no_channel_metadata example_data (initial_world ∅)
           "/tmp/tmpk3v9.wav").
  - left. reflexivity.
  - discriminate.
  - reflexivity.
Defined.

Lemma advertised_audio_reaches_endpoint_witness :
  (process_buffer example_env example_entity example_metadata example_data
     (initial_world ∅)).1
  = Ret match answer example_env example_entity example_metadata
                example_data with
        | Ret t =>
            match transcription_text t with
            | Ret v => {| text := v; result := SUCCESS |}
            | Raise _ => {| text := ""; result := ERROR |}
            end
        | Raise _ => {| text := ""; result := ERROR |}
        end
  ∧ trace (process_buffer example_env example_entity example_metadata
             example_data (initial_world ∅)).2
    = (trace (initial_world ∅)
       ++ [EvTempFile "/tmp/tmpk3v9.wav";
           EvTranscribe (ent_model example_entity)
             (wav_image 1 16000 example_data)
             (language example_metadata)])%list.
Proof.
  apply (advertised_audio_reaches_endpoint example_env example_entity
           example_metadata example_data (initial_world ∅)
           "/tmp/tmpk3v9.wav").
  - apply list_elem_of_here.
  - apply list_elem_of_here.
  - discriminate.
  - reflexivity.
  - reflexivity.
Defined.

Lemma leftover_file_holds_the_audio_witness :
  fs (process_buffer example_env example_entity example_metadata
        example_data (initial_world ∅)).2
  = <["/tmp/tmpk3v9.wav" :=
        wav_image (channel example_metadata) (sample_rate example_metadata)
          example_data]> (fs (initial_world ∅)).
Proof.
  apply (leftover_file_holds_the_audio example_env example_entity
           example_metadata example_data (initial_world ∅)
           "/tmp/tmpk3v9.wav").
  - discriminate.
  - reflexivity.
  - unfold wav_fields_fit. cbn. lia.
Defined.

Lemma setup_entry_makes_one_entity_witness :
  ∃ e,
    async_setup_entry example_entity_id example_AsyncOpenAI keyed_submission
    = Ret [e]
    ∧ ent_client e = keyed_client
    ∧ ent_model e = PStr "whisper-1"
    ∧ ent_config e = keyed_submission
    ∧ entity_id e
      = example_entity_id "stt.openai_compatible_stt_{}" (PStr "whisper-1").
Proof.
  apply (setup_entry_makes_one_entity example_entity_id example_AsyncOpenAI
           keyed_submission (PStr "https://api.openai.com/v1/")
           (PStr "whisper-1") keyed_client);
    reflexivity.
Defined.

(** The record the wizard makes of a submission with no API key cannot be
    set up where the environment has no key either: the constructor of the
    client raises. *)
Example keyless_record_is_not_set_up :
  ∃ msg,
    async_setup_entry example_entity_id example_AsyncOpenAI
      (entry_data openai_record)
    = Raise (OpenAIError msg).
Proof. eexists. reflexivity. Qed.

Lemma constructed_entity_properties_witness :
  attr_unique_id legacy_entity ≠ PNone
  ∧ ∃ m, legacy_record !! CONF_MODEL = Some m
         ∧ entity_name legacy_entity = Ret (py_str m)
         ∧ device_info "openai_compatible_stt" legacy_entity
           = Ret {| identifiers :=
                      [("openai_compatible_stt",
                        attr_unique_id legacy_entity)];
                    device_model := py_str m;
                    manufacturer := "OpenAI Compatible" |}.
Proof.
  apply (constructed_entity_properties example_entity_id
           "openai_compatible_stt" legacy_record
           (ent_client example_entity) (PStr "whisper-1") legacy_entity).
  reflexivity.
Defined.

Lemma wizard_record_sets_up_entity_witness :
  last (config_entries
          (submit accept_bracketed_host empty_hass keyed_submission).2)
  = Some {| entry_unique_id :=
              Some (py_str_opt (Some "api.openai.com") +:+ "_"
                      +:+ "whisper-1");
            entry_title := "OpenAI Compatible STT (api.openai.com, whisper-1)";
            entry_data :=
              <[UNIQUE_ID := PStr "api.openai.com_whisper-1"]>
                keyed_submission |}
  ∧ ∃ e,
      async_setup_entry example_entity_id example_AsyncOpenAI
        (<[UNIQUE_ID := PStr "api.openai.com_whisper-1"]> keyed_submission)
      = Ret [e]
      ∧ attr_unique_id e
        = PStr (py_str_opt (Some "api.openai.com") +:+ "_" +:+ "whisper-1")
      ∧ ent_client e = keyed_client
      ∧ ent_model e = PStr "whisper-1".
Proof.
  apply (wizard_record_sets_up_entity accept_bracketed_host
           example_entity_id example_AsyncOpenAI empty_hass
           (submit accept_bracketed_host empty_hass keyed_submission).2
           keyed_submission
           (<[UNIQUE_ID := PStr "api.openai.com_whisper-1"]> keyed_submission)
           "https://api.openai.com/v1/" "whisper-1"
           "OpenAI Compatible STT (api.openai.com, whisper-1)"
           (Some "api.openai.com") keyed_client).
  - reflexivity.
  - reflexivity.
  - vm_compute. reflexivity.
  - reflexivity.
  - vm_compute. reflexivity.
Defined.
